(** * python_utils: the [gcode_utils] helpers and the [gclient] HTTP client

  A shallow embedding of [src/gcode_utils/utils.py] ([deep_merge]) and of
  [src/gclient/gclient/client.py] ([SSLCiphers], [Auth], [Client]), with
  the properties the specification states about them. *)

From Stdlib Require Import List String Ascii ZArith Bool Lia QArith DecimalString.
Import ListNotations.

Local Open Scope string_scope.
Local Open Scope Z_scope.

(* ================================================================= *)
(** ** Python values *)

Module Py.

(** The values that flow through the two modules: [None], booleans,
    integers, strings and string-keyed dictionaries (JSON objects and
    header mappings).  A dictionary keeps its items in insertion order,
    as Python's [dict] does. *)
#[warnings="-register-all"]
Inductive pyval : Type :=
| PNone
| PBool (b : bool)
| PInt (z : Z)
| PStr (s : string)
| PDict (items : list (string * pyval)).

Definition dict : Type := list (string * pyval).

(** [bool(v)]: the truth value the [if v:] and [not v] tests use. *)
Definition truthy (v : pyval) : bool :=
  match v with
  | PNone => false
  | PBool b => b
  | PInt z => negb (z =? 0)
  | PStr s => negb (s =? "")%string
  | PDict [] => false
  | PDict (_ :: _) => true
  end.

(** An [Optional[dict]] argument seen as a value. *)
Definition of_opt_dict (d : option dict) : pyval :=
  match d with
  | None => PNone
  | Some items => PDict items
  end.

(** An [Optional[str]] attribute seen as a value. *)
Definition of_opt_str (s : option string) : pyval :=
  match s with
  | None => PNone
  | Some s => PStr s
  end.

(** [isinstance(v, str)] and [isinstance(v, int)] ([bool] is a subclass
    of [int]). *)
Definition is_str (v : pyval) : bool :=
  match v with PStr _ => true | _ => false end.
Definition is_int (v : pyval) : bool :=
  match v with PInt _ | PBool _ => true | _ => false end.

(** [d[key]] as a lookup: [None] stands for [KeyError]. *)
Fixpoint dict_get (key : string) (d : dict) : option pyval :=
  match d with
  | [] => None
  | (k, v) :: rest => if (k =? key)%string then Some v else dict_get key rest
  end.

(** [key in d]. *)
Definition dict_mem (key : string) (d : dict) : bool :=
  match dict_get key d with Some _ => true | None => false end.

(** [d[key] = value]: an existing key keeps its position, a new key goes
    to the end. *)
Fixpoint dict_set (key : string) (value : pyval) (d : dict) : dict :=
  match d with
  | [] => [(key, value)]
  | (k, v) :: rest =>
      if (k =? key)%string then (k, value) :: rest
      else (k, v) :: dict_set key value rest
  end.

Definition keys (d : dict) : list string := map fst d.

(** A list of items is a dictionary when no key occurs twice. *)
Definition well_formed (d : dict) : Prop := NoDup (keys d).

(** [needle in haystack] on strings. *)
Definition str_contains (needle haystack : string) : bool :=
  match String.index 0 needle haystack with
  | Some _ => true
  | None => false
  end.

End Py.

(* ================================================================= *)
(** ** gcode_utils/utils.py *)

Module Utils.
Import Py.

(** Lines 9-15 and 23 of [deep_merge]: the three tests on the operands,
    and the value returned once the loop has filled [merged]. *)
Definition deep_merge_body
    (dict1 dict2 : option dict) (merged : dict) : option dict :=
  if negb (truthy (of_opt_dict dict1)) && negb (truthy (of_opt_dict dict2))
  then None
  else if negb (truthy (of_opt_dict dict1)) then dict2
  else if negb (truthy (of_opt_dict dict2)) then dict1
  else Some merged.

(** Lines 17-21: the loop over [dict2.items()].  The recursion goes
    through the values stored in [dict2], so it is written on the value
    that holds the items; [merge_loop] below gives it its usual shape. *)
Fixpoint merge_items_of (dict2 : pyval) (merged : dict) {struct dict2} : dict :=
  match dict2 with
  | PDict items =>
      (fix loop (items : dict) (merged : dict) {struct items} : dict :=
         match items with
         | [] => merged
         | (key, value) :: rest =>
             loop rest
               (match dict_get key merged, value with
                | Some (PDict m), PDict v =>
                    dict_set key
                      (of_opt_dict
                         (deep_merge_body (Some m) (Some v)
                            (merge_items_of value m)))
                      merged
                | _, _ => dict_set key value merged
                end)
         end) items merged
  | _ => merged
  end.

Definition merge_loop (items : dict) (merged : dict) : dict :=
  merge_items_of (PDict items) merged.

(** [deep_merge(dict1, dict2)], on operands that are a [dict] or [None]. *)
Definition deep_merge (dict1 dict2 : option dict) : option dict :=
  deep_merge_body dict1 dict2
    (match dict1, dict2 with
     | Some d1, Some d2 => merge_loop d2 d1
     | _, _ => []
     end).

(** [value_or_none(dict, key, value_if_not=None)]:
    [dict[key] if key in dict else value_if_not]. *)
Definition value_or_none (d : dict) (key : string) (value_if_not : pyval)
  : pyval :=
  if dict_mem key d then
    match dict_get key d with
    | Some v => v
    | None => value_if_not
    end
  else value_if_not.

End Utils.

(* ================================================================= *)
(** ** Effects: exceptions, the clock, the TLS library and the network *)

Module Eff.
Import Py.

(** The exceptions the client raises itself ([Exception], [TypeError],
    [ValueError], with the arguments the source gives them) and those that
    reach it from the interpreter and from the libraries it calls. *)
Inductive exn : Type :=
| Exception (msg : string) (args : list pyval)
| TypeError (msg : string)
| ValueError (msg : string)
| KeyError (key : string)
| OperandTypeError
| OverflowError
| AttributeError
| SSLError
| RequestException
| JSONDecodeError.

Inductive result (A : Type) : Type :=
| Return (a : A)
| Raise (e : exn).
Arguments Return {A} a.
Arguments Raise {A} e.

(** One call of [Session.post] or [Session.get]. *)
Record http_call : Type := {
  verb : string;
  url : string;
  call_headers : option dict;
  call_data : option dict;
  call_params : option dict
}.

(** What the server sent back: a status and a body, [None] when the body
    is not JSON. *)
Record Response : Type := {
  status_code : Z;
  body : option pyval
}.

Inductive reply : Type :=
| Responds (r : Response)
| Fails.

(** The method a session call is made from. *)
Inductive site : Type := InAuth | InRequest.

Inductive event : Type :=
| CreateDefaultContext
| SetCiphers (ciphers : string)
| SessionCall (from : site) (c : http_call).

(** The world outside the program: [repr] of a value, whether OpenSSL
    accepts a cipher string, the successive readings of [time.time()], and
    the reply to the n-th event of a run. *)
Record Env : Type := {
  py_repr : pyval -> string;
  set_ciphers_ok : string -> bool;
  clock : nat -> Z;
  transport : nat -> http_call -> reply
}.

Record World : Type := {
  trace : list event;
  time_reads : nat
}.

Definition start : World := {| trace := []; time_reads := 0 |}.

(** A method body: it runs on the object [self : S] and on the world, may
    change both, and returns or raises.  What it changed before raising
    stays changed. *)
Definition M (S A : Type) : Type := S -> World -> result A * S * World.

Definition ret {S A} (a : A) : M S A := fun self w => (Return a, self, w).

Definition raise {S A} (e : exn) : M S A := fun self w => (Raise e, self, w).

Definition bind {S A B} (m : M S A) (k : A -> M S B) : M S B :=
  fun self w =>
    match m self w with
    | (Return a, self', w') => k a self' w'
    | (Raise e, self', w') => (Raise e, self', w')
    end.

Definition get_self {S} : M S S := fun self w => (Return self, self, w).

Definition put_self {S} (self' : S) : M S unit :=
  fun _ w => (Return tt, self', w).

Definition emit {S} (ev : event) : M S unit :=
  fun self w =>
    (Return tt, self, {| trace := trace w ++ [ev]; time_reads := time_reads w |}).

(** [time.time()]. *)
Definition time_time {S} (env : Env) : M S Z :=
  fun self w =>
    (Return (clock env (time_reads w)), self,
     {| trace := trace w; time_reads := Datatypes.S (time_reads w) |}).

(** [if cond: raise e]. *)
Definition raise_if {S} (cond : bool) (e : exn) : M S unit :=
  if cond then raise e else ret tt.

(** [str(v)], which is what an f-string field without conversion shows. *)
Definition py_str (env : Env) (v : pyval) : string :=
  match v with
  | PStr s => s
  | _ => py_repr env v
  end.

(** [session.post(...)] and [session.get(...)]: the call goes out, then
    the transport answers or fails. *)
Definition session_call {S} (env : Env) (from : site) (c : http_call)
  : M S Response :=
  fun self w =>
    let w' := {| trace := trace w ++ [SessionCall from c];
                 time_reads := time_reads w |} in
    match transport env (List.length (trace w)) c with
    | Responds r => (Return r, self, w')
    | Fails => (Raise RequestException, self, w')
    end.

(** [response.json()]. *)
Definition json {S} (r : Response) : M S pyval :=
  match body r with
  | Some v => ret v
  | None => raise JSONDecodeError
  end.

(** ["key" in v]: key membership on a dict, substring on a string, and a
    [TypeError] on a value that is not a container. *)
Definition py_in {S} (key : string) (v : pyval) : M S bool :=
  match v with
  | PDict d => ret (dict_mem key d)
  | PStr s => ret (str_contains key s)
  | _ => raise OperandTypeError
  end.

(** [v["key"]]. *)
Definition getitem {S} (v : pyval) (key : string) : M S pyval :=
  match v with
  | PDict d =>
      match dict_get key d with
      | Some x => ret x
      | None => raise (KeyError key)
      end
  | _ => raise OperandTypeError
  end.

(** Numbers.  [time.time()] and the expiry are floats; the model keeps the
    floats whose value is a whole number, as that whole number, and
    [infinity] stands for [inf].  A reading of the clock is finite. *)
Definition infinity : Z := 2 ^ 1024.

(** The least whole number that is too large for a float: from here on the
    nearest float would be [2 ^ 1024]. *)
Definition float_limit : Z := 2 ^ 1024 - 2 ^ 970.

(** The float nearest to a whole number: 53 significant bits, ties to the
    even one, [inf] beyond the range. *)
Definition round_float (z : Z) : Z :=
  let a := Z.abs z in
  let shift := Z.log2 a - 52 in
  if shift <=? 0 then z
  else if float_limit <=? a then Z.sgn z * infinity
  else
    let q := Z.shiftr a shift in
    let r := a - Z.shiftl q shift in
    let half := Z.shiftl 1 (shift - 1) in
    let q' := if (half <? r) || ((r =? half) && Z.odd q) then q + 1 else q in
    Z.sgn z * Z.shiftl q' shift.

(** [float(z)] for an [int]: [None] stands for the [OverflowError] of an
    [int] too large to convert. *)
Definition float_of_int (z : Z) : option Z :=
  if float_limit <=? Z.abs z then None else Some (round_float z).

(** [t + v] for a float [t] read from the clock: defined when [v] is an
    [int] or a [bool], which is first converted to a float; the sum is
    rounded as a float sum is. *)
Definition add_number {S} (t : Z) (v : pyval) : M S Z :=
  match v with
  | PInt z =>
      match float_of_int z with
      | Some f => ret (round_float (t + f))
      | None => raise OverflowError
      end
  | PBool b => ret (round_float (t + (if b then 1 else 0)))
  | _ => raise OperandTypeError
  end.

Arguments round_float : simpl never.
Arguments float_of_int : simpl never.

End Eff.

Declare Scope eff_scope.
Delimit Scope eff_scope with eff.
Notation "x <- c1 ;; c2" := (Eff.bind c1 (fun x => c2))
  (at level 61, c1 at next level, right associativity) : eff_scope.
Notation "c1 ;; c2" := (Eff.bind c1 (fun _ => c2))
  (at level 61, right associativity) : eff_scope.
Local Open Scope eff_scope.

(* ================================================================= *)
(** ** gclient/client.py: class SSLCiphers *)

Module SSLCiphers.
Import Py Eff.

(** The arguments [Client] gives to [Retry]. *)
Record Retry : Type := {
  total : Z;
  backoff_factor : Q;
  status_forcelist : list Z
}.

(** The two settings of an [ssl.SSLContext] the adapter touches. *)
Record SSLContext : Type := {
  check_hostname : bool;
  ciphers : option string
}.

Record t : Type := {
  ssl_context : SSLContext;
  max_retries : option Retry
}.

(** The integer an [int] or a [bool] stands for. *)
Definition int_value (v : pyval) : Z :=
  match v with
  | PInt z => z
  | PBool b => if b then 1 else 0
  | _ => 0
  end.

(** [v in range(n)] for an [int] (or [bool]) [v]. *)
Definition in_range (n : Z) (v : pyval) : bool :=
  (0 <=? int_value v) && (int_value v <? n).

(** [ssl.create_default_context()]. *)
Definition create_default_context {S} : M S SSLContext :=
  emit CreateDefaultContext ;;
  ret {| check_hostname := true; ciphers := None |}.

(** [ctx.set_ciphers(cipher_list)]: OpenSSL takes the string or refuses it. *)
Definition set_ciphers {S} (env : Env) (ctx : SSLContext) (cipher_list : string)
  : M S SSLContext :=
  emit (SetCiphers cipher_list) ;;
  if set_ciphers_ok env cipher_list
  then ret {| check_hostname := check_hostname ctx; ciphers := Some cipher_list |}
  else raise SSLError.

(** [SSLCiphers.__init__(cipher_list, security_level, max_retries=...)]. *)
Definition init {S} (env : Env)
    (cipher_list security_level : pyval) (retries : option Retry) : M S t :=
  (if truthy cipher_list then
     raise_if (negb (is_str cipher_list))
       (TypeError ("Expected cipher_list to be a str, not "
                   ++ py_repr env cipher_list)) ;;
     raise_if (str_contains "@SECLEVEL" (py_str env cipher_list))
       (ValueError
          "You must not specify the Security Level manually in the cipher list.")
   else ret tt) ;;
  raise_if (negb (is_int security_level))
    (TypeError ("Expected security_level to be an int, not "
                ++ py_repr env security_level)) ;;
  raise_if (negb (in_range 6 security_level))
    (ValueError ("The security_level must be a value between 0 and 5, not "
                 ++ py_str env security_level)) ;;
  let cipher_list :=
    if negb (truthy cipher_list) then PStr "DEFAULT" else cipher_list in
  let cipher_list :=
    (py_str env cipher_list ++ ":@SECLEVEL=" ++ py_str env security_level)%string in
  ctx <- create_default_context ;;
  let ctx := {| check_hostname := false; ciphers := ciphers ctx |} in
  ctx <- set_ciphers env ctx cipher_list ;;
  ret {| ssl_context := ctx; max_retries := retries |}.

End SSLCiphers.

(* ================================================================= *)
(** ** gclient/client.py: class Auth *)

Module Auth.
Import Py Eff.

(** The configuration ([base_api], [endpoint], [headers], [payload]) and
    the token state ([token], [expiry], [token_type], [country]).  The
    state holds whatever the auth response held.  [expiry] is a float,
    kept as the whole number it holds (see [Eff.round_float]). *)
Record t : Type := {
  base_api : option string;
  endpoint : option string;
  headers : option dict;
  payload : option dict;
  token : pyval;
  expiry : option Z;
  token_type : pyval;
  country : pyval
}.

(** [Auth(base_api, endpoint, headers, payload)]: the state starts at the
    class defaults. *)
Definition init (base_api endpoint : option string) (headers payload : option dict)
  : t :=
  {| base_api := base_api; endpoint := endpoint;
     headers := headers; payload := payload;
     token := PNone; expiry := None; token_type := PNone; country := PNone |}.

Definition set_token (v : pyval) : M t unit :=
  self <- get_self ;;
  put_self {| base_api := base_api self; endpoint := endpoint self;
              headers := headers self; payload := payload self;
              token := v; expiry := expiry self;
              token_type := token_type self; country := country self |}.

Definition set_expiry (e : Z) : M t unit :=
  self <- get_self ;;
  put_self {| base_api := base_api self; endpoint := endpoint self;
              headers := headers self; payload := payload self;
              token := token self; expiry := Some e;
              token_type := token_type self; country := country self |}.

Definition set_token_type (v : pyval) : M t unit :=
  self <- get_self ;;
  put_self {| base_api := base_api self; endpoint := endpoint self;
              headers := headers self; payload := payload self;
              token := token self; expiry := expiry self;
              token_type := v; country := country self |}.

Definition set_country (v : pyval) : M t unit :=
  self <- get_self ;;
  put_self {| base_api := base_api self; endpoint := endpoint self;
              headers := headers self; payload := payload self;
              token := token self; expiry := expiry self;
              token_type := token_type self; country := v |}.

(** The string an [Optional[str]] holds once it has passed a truth test. *)
Definition str_of (s : option string) : string :=
  match s with Some s => s | None => "" end.

(** [expiry] as a value, for the truth test. *)
Definition of_opt_num (e : option Z) : pyval :=
  match e with Some z => PInt z | None => PNone end.

(** [Auth.auth(session, headers=None, payload=None)]. *)
Definition auth (env : Env) (headers_arg payload_arg : option dict) : M t pyval :=
  self <- get_self ;;
  raise_if (negb (truthy (of_opt_str (base_api self))))
    (Exception "Missing auth url base api" []) ;;
  raise_if (negb (truthy (of_opt_str (endpoint self))))
    (Exception "Missing auth endpoint" []) ;;
  r <- session_call env InAuth
         {| verb := "post";
            url := (str_of (base_api self) ++ str_of (endpoint self))%string;
            call_headers :=
              if truthy (of_opt_dict headers_arg) then headers_arg
              else headers self;
            call_data :=
              if truthy (of_opt_dict payload_arg) then payload_arg
              else payload self;
            call_params := None |} ;;
  response <- json r ;;
  has_error <- py_in "error" response ;;
  raise_if has_error (Exception "An error occurred during auth" [response]) ;;
  access_token <- getitem response "access_token" ;;
  set_token access_token ;;
  now <- time_time env ;;
  expires_in <- getitem response "expires_in" ;;
  e <- add_number now expires_in ;;
  set_expiry e ;;
  tt_ <- getitem response "token_type" ;;
  set_token_type tt_ ;;
  c <- getitem response "country" ;;
  set_country c ;;
  ret response.

(** [Auth.is_token_expired()]. *)
Definition is_token_expired (env : Env) : M t bool :=
  self <- get_self ;;
  if negb (truthy (token self)) || negb (truthy (of_opt_num (expiry self)))
  then ret true
  else
    now <- time_time env ;;
    ret (negb (match expiry self with Some e => e >? now | None => false end)).

(** [Auth.get_auth()]: the f-string ["{self.token_type} {self.token}"]. *)
Definition get_auth (env : Env) (self : t) : string :=
  (py_str env (token_type self) ++ " " ++ py_str env (token self))%string.

End Auth.

(* ================================================================= *)
(** ** gclient/client.py: class Client *)

Module Client.
Import Py Eff.

(** The [requests.Session] as [__setup_session] leaves it: the adapter
    mounted on ["https://"], the proxies, and the headers it was updated
    with. *)
Record Session : Type := {
  https_adapter : SSLCiphers.t;
  proxies : list (string * string);
  session_headers : dict
}.

Record t : Type := {
  base_api : option string;
  auth : option Auth.t;
  session : Session
}.

(** The [Retry(...)] of lines 138-142. *)
Definition retry_policy : SSLCiphers.Retry :=
  {| SSLCiphers.total := 15;
     SSLCiphers.backoff_factor := 2 # 10;
     SSLCiphers.status_forcelist := [429; 500; 502; 503; 504] |}.

(** [Client.__setup_session(headers, proxy)]. *)
Definition setup_session {S} (env : Env) (headers : dict) (proxy : option string)
  : M S Session :=
  adapter <- SSLCiphers.init env PNone (PInt 2) (Some retry_policy) ;;
  ret {| https_adapter := adapter;
         proxies :=
           match proxy with
           | Some p =>
               if truthy (PStr p) then [("http", p); ("https", p)] else []
           | None => []
           end;
         session_headers := headers |}.

(** [Client(auth, base_api, default_headers, proxy)]. *)
Definition init {S} (env : Env) (auth : option Auth.t) (base_api : option string)
    (default_headers : dict) (proxy : option string) : M S t :=
  s <- setup_session env default_headers proxy ;;
  ret {| base_api := base_api; auth := auth; session := s |}.

(** A method of [self.auth] called from a method of the client: it runs
    on the attached object, and what it does to that object stays. *)
Definition on_auth {A} (m : M Auth.t A) : M t A :=
  fun self w =>
    match auth self with
    | Some a =>
        match m a w with
        | (r, a', w') =>
            (r, {| base_api := base_api self; auth := Some a';
                   session := session self |}, w')
        end
    | None => (Raise AttributeError, self, w)
    end.

(** [Client.request(method, endpoint, headers, payload, params)]. *)
Definition request (env : Env) (method : string) (endpoint : option string)
    (headers payload params : option dict) : M t (option Response) :=
  self <- get_self ;;
  raise_if (negb (truthy (of_opt_str (base_api self))))
    (Exception "Missing url base api" []) ;;
  raise_if (negb (truthy (of_opt_str endpoint)))
    (Exception "Missing endpoint" []) ;;
  headers <-
    match auth self with
    | Some _ =>
        expired <- on_auth (Auth.is_token_expired env) ;;
        (if expired then
           _ <- on_auth (Auth.auth env None None) ;; ret tt
         else ret tt) ;;
        authorization <- on_auth (a <- get_self ;; ret (Auth.get_auth env a)) ;;
        ret (Utils.deep_merge
               (Some [("Authorization", PStr authorization)]) headers)
    | None => ret headers
    end ;;
  let url := (Auth.str_of (base_api self) ++ Auth.str_of endpoint)%string in
  if (method =? "post")%string then
    r <- session_call env InRequest
           {| verb := "post"; url := url; call_headers := headers;
              call_data := payload; call_params := params |} ;;
    ret (Some r)
  else if (method =? "get")%string then
    r <- session_call env InRequest
           {| verb := "get"; url := url; call_headers := headers;
              call_data := payload; call_params := params |} ;;
    ret (Some r)
  else ret None.

(** [Client.get] and [Client.post]. *)
Definition get (env : Env) (endpoint : option string)
    (headers payload params : option dict) : M t (option Response) :=
  request env "get" endpoint headers payload params.

Definition post (env : Env) (endpoint : option string)
    (headers payload params : option dict) : M t (option Response) :=
  request env "post" endpoint headers payload params.

End Client.

(* ================================================================= *)
(** ** A concrete world, for running the definitions *)

Module Sample.
Import Py Eff.

(** [repr] on [None], booleans, integers and plain strings; nested values
    are not spelled out. *)
Definition repr (v : pyval) : string :=
  match v with
  | PNone => "None"
  | PBool true => "True"
  | PBool false => "False"
  | PInt z => NilZero.string_of_int (Z.to_int z)
  | PStr s => ("'" ++ s ++ "'")%string
  | PDict _ => "{...}"
  end.

(** A token response of the shape the auth endpoint documents. *)
Definition token_response : pyval :=
  PDict [("access_token", PStr "abc"); ("expires_in", PInt 300);
         ("token_type", PStr "Bearer"); ("country", PStr "IT")].

(** A success response that lacks [expires_in]. *)
Definition short_response : pyval :=
  PDict [("access_token", PStr "abc"); ("token_type", PStr "Bearer");
         ("country", PStr "IT")].

Definition answering (v : pyval) : nat -> http_call -> reply :=
  fun _ _ => Responds {| status_code := 200; body := Some v |}.

(** OpenSSL accepts every cipher string, the clock reads 1000, 1001, ...,
    and every call is answered with [v]. *)
Definition env_with (v : pyval) : Env :=
  {| py_repr := repr;
     set_ciphers_ok := fun _ => true;
     clock := fun n => 1000 + Z.of_nat n;
     transport := answering v |}.

Definition env : Env := env_with token_response.

(** The same world with an OpenSSL that takes the default cipher list at a
    level written as a digit from 0 to 5, and nothing else. *)
Definition digits_env : Env :=
  {| py_repr := repr;
     set_ciphers_ok :=
       fun s =>
         existsb (fun d => (s =? "DEFAULT:@SECLEVEL=" ++ d)%string)
           ["0"; "1"; "2"; "3"; "4"; "5"];
     clock := fun n => 1000 + Z.of_nat n;
     transport := answering token_response |}.

Definition fresh_auth : Auth.t :=
  Auth.init (Some "https://id.example.com") (Some "/token")
    (Some [("Authorization", PStr "Basic dXNlcjpwdw==")])
    (Some [("grant_type", PStr "client_id")]).

(** The same controller holding a token that runs until 2000. *)
Definition valid_auth : Auth.t :=
  {| Auth.base_api := Auth.base_api fresh_auth;
     Auth.endpoint := Auth.endpoint fresh_auth;
     Auth.headers := Auth.headers fresh_auth;
     Auth.payload := Auth.payload fresh_auth;
     Auth.token := PStr "abc"; Auth.expiry := Some 2000;
     Auth.token_type := PStr "Bearer"; Auth.country := PStr "IT" |}.

(** A controller whose token is the empty string, with an expiry ahead. *)
Definition empty_token_auth : Auth.t :=
  {| Auth.base_api := Auth.base_api fresh_auth;
     Auth.endpoint := Auth.endpoint fresh_auth;
     Auth.headers := Auth.headers fresh_auth;
     Auth.payload := Auth.payload fresh_auth;
     Auth.token := PStr ""; Auth.expiry := Some 2000;
     Auth.token_type := PStr "Bearer"; Auth.country := PStr "IT" |}.

Definition adapter : SSLCiphers.t :=
  {| SSLCiphers.ssl_context :=
       {| SSLCiphers.check_hostname := false;
          SSLCiphers.ciphers := Some "DEFAULT:@SECLEVEL=2" |};
     SSLCiphers.max_retries := Some Client.retry_policy |}.

Definition client_of (a : option Auth.t) : Client.t :=
  {| Client.base_api := Some "https://api.example.com";
     Client.auth := a;
     Client.session :=
       {| Client.https_adapter := adapter; Client.proxies := [];
          Client.session_headers := [("Accept", PStr "*/*")] |} |}.

End Sample.

(* ================================================================= *)
(** ** Vocabulary of the statements *)

Module Spec.
Import Py Eff.

(** A mapping is empty or absent when it is [None] or [{}]. *)
Definition empty_or_absent (d : option dict) : Prop :=
  d = None \/ d = Some [].

(** A string setting is missing when it is [None] or empty. *)
Definition missing (s : option string) : Prop :=
  s = None \/ s = Some "".

(** What one key holds after the merge, from what the two operands hold. *)
Definition merged_entry (old new : option pyval) : option pyval :=
  match old, new with
  | Some (PDict m), Some (PDict v) =>
      Some (of_opt_dict (Utils.deep_merge (Some m) (Some v)))
  | _, Some value => Some value
  | _, None => old
  end.

(** The three parts of a run. *)
Definition outcome {S A} (run : result A * S * World) : result A :=
  fst (fst run).
Definition self_after {S A} (run : result A * S * World) : S :=
  snd (fst run).
Definition world_after {S A} (run : result A * S * World) : World :=
  snd run.

(** A value in which every mapping, at every depth, is non-empty and has
    distinct keys. *)
Fixpoint filled (v : pyval) : Prop :=
  match v with
  | PDict items =>
      items <> [] /\ NoDup (map fst items) /\
      (fix each (l : list (string * pyval)) : Prop :=
         match l with
         | [] => True
         | (_, x) :: rest => filled x /\ each rest
         end) items
  | _ => True
  end.

(** The errors [SSLCiphers.__init__] raises on a bad argument. *)
Definition invalid_argument (e : exn) : Prop :=
  match e with
  | TypeError _ | ValueError _ => True
  | _ => False
  end.

(** A cipher list the adapter takes: nothing (any falsy value), or a
    string that does not hold the security-level directive. *)
Definition acceptable (cipher_list : pyval) : Prop :=
  truthy cipher_list = false \/
  exists s : string, cipher_list = PStr s /\ str_contains "@SECLEVEL" s = false.

(** The cipher string handed to OpenSSL for a cipher list and a level. *)
Definition cipher_string (env : Env) (cipher_list : pyval) (level : Z) : string :=
  ((if truthy cipher_list then py_str env cipher_list else "DEFAULT")
   ++ ":@SECLEVEL=" ++ py_repr env (PInt level))%string.

End Spec.

(* ================================================================= *)
(** ** gcode_utils/utils.py: run_detached_subprocess *)

Module Detached.

(** What the function asks the operating system: [platform.system()],
    [os.path.isfile], [os.access(path, os.X_OK)], and whether
    [subprocess.Popen] starts the process or raises. *)
Record Os : Type := {
  system : string;
  isfile : string -> bool;
  access_x_ok : string -> bool;
  popen_starts : list string -> bool -> bool
}.

(** One call of [subprocess.Popen(argv, shell=...)] that started. *)
Record Popen : Type := {
  argv : list string;
  shell : bool
}.

(** How a call ends: with a return code, with the [TypeError] of a list
    concatenation, or with the error [Popen] raised. *)
Inductive outcome : Type :=
| Returned (code : Z)
| RaisedTypeError
| RaisedOSError.

(** [prefix + args]: defined when [args] is a list. *)
Definition list_add (prefix : list string) (args : option (list string))
  : option (list string) :=
  match args with
  | Some a => Some (prefix ++ a)%list
  | None => None
  end.

(** [subprocess.Popen(argv, shell=shell)] followed by [return code]; the
    argument list is computed before the call. *)
Definition popen_then_return (os : Os) (argv : option (list string))
    (shell : bool) (code : Z) : outcome * list Popen :=
  match argv with
  | None => (RaisedTypeError, [])
  | Some argv =>
      if popen_starts os argv shell
      then (Returned code, [{| argv := argv; shell := shell |}])
      else (RaisedOSError, [])
  end.

(** [run_detached_subprocess(command, subprocess_path, args=[])]: the
    outcome, and the processes it started. *)
Definition run_detached_subprocess (os : Os)
    (command subprocess_path : string) (args : option (list string))
  : outcome * list Popen :=
  let sistema_operativo := system os in
  if negb (isfile os subprocess_path) then (Returned (-1), [])
  else if negb (access_x_ok os subprocess_path) then (Returned (-2), [])
  else if (sistema_operativo =? "Windows")%string then
    popen_then_return os
      (list_add ["start"; "cmd"; "/c"; command; subprocess_path] args) true 1
  else if (sistema_operativo =? "Darwin")%string then
    popen_then_return os
      (list_add ["open"; "-a"; "Terminal"; command; subprocess_path] args)
      false 2
  else if (sistema_operativo =? "Linux")%string then
    popen_then_return os
      (list_add ["x-terminal-emulator"; "-e"; command; subprocess_path] args)
      false 3
  else (Returned 0, []).

(** A Linux machine on which [/usr/bin/tool] is an executable file and
    [/etc/motd] a file that is not executable. *)
Definition linux : Os :=
  {| system := "Linux";
     isfile := fun p => (p =? "/usr/bin/tool")%string || (p =? "/etc/motd")%string;
     access_x_ok := fun p => (p =? "/usr/bin/tool")%string;
     popen_starts := fun _ _ => true |}.

End Detached.

(* ================================================================= *)
(** ** Vocabulary of the statements about runs of the client *)

Module Runs.
Import Py Eff.

(** The call [Auth.auth(session, headers, payload)] sends. *)
Definition exchange_call (self : Auth.t) (headers payload : option dict)
  : http_call :=
  {| verb := "post";
     url := (Auth.str_of (Auth.base_api self)
             ++ Auth.str_of (Auth.endpoint self))%string;
     call_headers :=
       if truthy (of_opt_dict headers) then headers else Auth.headers self;
     call_data :=
       if truthy (of_opt_dict payload) then payload else Auth.payload self;
     call_params := None |}.

(** The call [Client.request] sends, once the headers are settled. *)
Definition dispatch_call (self : Client.t) (method : string)
    (endpoint : option string) (headers payload params : option dict)
  : http_call :=
  {| verb := method;
     url := (Auth.str_of (Client.base_api self) ++ Auth.str_of endpoint)%string;
     call_headers := headers;
     call_data := payload;
     call_params := params |}.

(** A controller after a successful exchange. *)
Definition refreshed (self : Auth.t)
    (token : pyval) (expiry : Z) (token_type country : pyval) : Auth.t :=
  {| Auth.base_api := Auth.base_api self;
     Auth.endpoint := Auth.endpoint self;
     Auth.headers := Auth.headers self;
     Auth.payload := Auth.payload self;
     Auth.token := token; Auth.expiry := Some expiry;
     Auth.token_type := token_type; Auth.country := country |}.

(** A client with another controller attached. *)
Definition with_auth (self : Client.t) (a : Auth.t) : Client.t :=
  {| Client.base_api := Client.base_api self;
     Client.auth := Some a;
     Client.session := Client.session self |}.

(** The world after one more event. *)
Definition after_event (w : World) (ev : event) : World :=
  {| trace := (trace w ++ [ev])%list; time_reads := time_reads w |}.

(** The world after one more reading of the clock. *)
Definition after_clock (w : World) : World :=
  {| trace := trace w; time_reads := Datatypes.S (time_reads w) |}.

(** A response body of the documented shape: no [error] key, and the four
    fields, [expires_in] being an integer. *)
Definition token_body (d : dict)
    (token : pyval) (ttl : Z) (token_type country : pyval) : Prop :=
  dict_mem "error" d = false /\
  dict_get "access_token" d = Some token /\
  dict_get "expires_in" d = Some (PInt ttl) /\
  dict_get "token_type" d = Some token_type /\
  dict_get "country" d = Some country.

(** What the caller of a dispatch gets: the response, or the error of
    the transport. *)
Definition answer (env : Env) (w : World) (c : http_call)
  : result (option Response) :=
  match transport env (List.length (trace w)) c with
  | Responds r => Return (Some r)
  | Fails => Raise RequestException
  end.

(** The run of one dispatch. *)
Definition dispatch (env : Env) (c : http_call) (self : Client.t) (w : World)
  : result (option Response) * Client.t * World :=
  (answer env w c, self, after_event w (SessionCall InRequest c)).

(** The last lines of [Client.request], from [if method == "post"] on. *)
Definition send (env : Env) (self : Client.t) (method : string)
    (endpoint : option string) (headers payload params : option dict)
    (w : World) : result (option Response) * Client.t * World :=
  if (method =? "post")%string then
    dispatch env (dispatch_call self "post" endpoint headers payload params)
      self w
  else if (method =? "get")%string then
    dispatch env (dispatch_call self "get" endpoint headers payload params)
      self w
  else (Return None, self, w).

(** The headers of a request made for the controller [a]. *)
Definition authorized (env : Env) (a : Auth.t) (headers : option dict)
  : option dict :=
  Utils.deep_merge (Some [("Authorization", PStr (Auth.get_auth env a))])
    headers.




(** A whole number that is a float with room to spare: below [2 ^ 53] in
    absolute value, no rounding happens. *)
Definition small (z : Z) : Prop := Z.abs z < 2 ^ 53.

End Runs.

(* ================================================================= *)
(** ** gclient/client.py: class ClientFactory *)

Module ClientFactory.
Import Py Eff.

(** [s.replace(old, new)] for a non-empty [old]: every occurrence, from
    the left, without overlap.  [skip] counts the characters of a matched
    [old] that are still to be passed over. *)
Fixpoint replace_from (old new : string) (skip : nat) (s : string) : string :=
  match s with
  | EmptyString => EmptyString
  | String c rest =>
      match skip with
      | Datatypes.S k => replace_from old new k rest
      | O =>
          if String.prefix old s
          then (new ++ replace_from old new (String.length old - 1) rest)%string
          else String c (replace_from old new 0 rest)
      end
  end.

(** [s.replace("", new)]: [new] before every character and at the end. *)
Fixpoint interleave (new s : string) : string :=
  match s with
  | EmptyString => new
  | String c rest => (new ++ String c (interleave new rest))%string
  end.

(** [s.replace(old, new)]. *)
Definition str_replace (old new s : string) : string :=
  match old with
  | EmptyString => interleave new s
  | String _ _ => replace_from old new 0 s
  end.

(** [v[key] = value] on a value: defined on a mapping. *)
Definition setitem {S} (v : pyval) (key : string) (value : pyval) : M S pyval :=
  match v with
  | PDict d => ret (PDict (dict_set key value d))
  | _ => raise OperandTypeError
  end.

(** [ClientFactory.extract_auth_config(config)]. *)
Definition extract_auth_config {S} (config : pyval) : M S pyval :=
  base_api <- getitem config "base_api" ;;
  section <- getitem config "auth" ;;
  endpoint <- getitem section "endpoint" ;;
  section <- getitem config "auth" ;;
  headers <- getitem section "headers" ;;
  section <- getitem config "auth" ;;
  payload <- getitem section "payload" ;;
  ret (PDict [("base_api", base_api); ("endpoint", endpoint);
              ("headers", headers); ("payload", payload)]).

(** [ClientFactory.extract_client_config(config)]. *)
Definition extract_client_config {S} (config : pyval) : M S (pyval * pyval) :=
  base_api <- getitem config "base_api" ;;
  default_headers <- getitem config "default_headers" ;;
  ret (base_api, default_headers).

(** One of the two header assignments of [crunchyroll]:
    [auth["headers"][name] = str(auth["headers"][name]).replace(old, new)]. *)
Definition fill_header {S} (env : Env) (auth : pyval)
    (name old new : string) : M S pyval :=
  headers <- getitem auth "headers" ;;
  template <- getitem headers name ;;
  let value := str_replace old new (py_str env template) in
  headers <- getitem auth "headers" ;;
  headers <- setitem headers name (PStr value) ;;
  setitem auth "headers" headers.

(** [ClientFactory.crunchyroll], from the loaded [config] to the keyword
    arguments it gives to [Auth] (lines 224-238).  [b64encode] is
    [base64.b64encode] between [encode] and [decode], and [uuid] the
    identifier [uuid.uuid4()] draws. *)
Definition crunchyroll_auth {S} (env : Env) (b64encode : string -> string)
    (uuid : string) (config : pyval) : M S pyval :=
  auth <- extract_auth_config config ;;
  headers <- getitem auth "headers" ;;
  template <- getitem headers "Authorization" ;;
  section <- getitem config "auth" ;;
  user <- getitem section "user" ;;
  section <- getitem config "auth" ;;
  password <- getitem section "password" ;;
  let token :=
    b64encode (py_str env user ++ ":" ++ py_str env password)%string in
  let value := str_replace "{token}" token (py_str env template) in
  headers <- getitem auth "headers" ;;
  headers <- setitem headers "Authorization" (PStr value) ;;
  auth <- setitem auth "headers" headers ;;
  fill_header env auth "ETP-Anonymous-ID" "{id}" uuid.

(** A service profile of the shape [crunchyroll] reads. *)
Definition profile_headers : dict :=
  [("Authorization", PStr "Basic {token}");
   ("ETP-Anonymous-ID", PStr "{id}");
   ("Content-Type", PStr "application/x-www-form-urlencoded")].

Definition profile_auth : dict :=
  [("endpoint", PStr "/auth/v1/token");
   ("headers", PDict profile_headers);
   ("payload", PDict [("grant_type", PStr "client_id")]);
   ("user", PStr "user"); ("password", PStr "pw")].

Definition profile_items : dict :=
  [("base_api", PStr "https://api.example.com");
   ("default_headers", PDict [("Accept", PStr "*/*")]);
   ("auth", PDict profile_auth)].

Definition profile : pyval := PDict profile_items.

End ClientFactory.

(* ================================================================= *)
(** ** Properties of [deep_merge] *)

Section DeepMerge.
Import Py Utils Spec.

Lemma empty_or_absent_falsy (d : option dict) :
  empty_or_absent d <-> truthy (of_opt_dict d) = false.
Proof.
  unfold empty_or_absent. split.
  - intros [-> | ->]; reflexivity.
  - destruct d as [[|item rest]|]; simpl; intros H;
      [right | discriminate | left]; reflexivity.
Qed.

Lemma nonempty_truthy (m : dict) : m <> [] -> truthy (PDict m) = true.
Proof. destruct m; [congruence | reflexivity]. Qed.

(** The loop, one iteration at a time, as the source writes it. *)
Lemma merge_loop_nil (merged : dict) : merge_loop [] merged = merged.
Proof. reflexivity. Qed.

Lemma merge_loop_cons (key : string) (value : pyval) (rest merged : dict) :
  merge_loop ((key, value) :: rest) merged =
  merge_loop rest
    (match dict_get key merged, value with
     | Some (PDict m), PDict v =>
         dict_set key (of_opt_dict (deep_merge (Some m) (Some v))) merged
     | _, _ => dict_set key value merged
     end).
Proof.
  unfold merge_loop at 1. cbn [merge_items_of].
  destruct (dict_get key merged) as [[ | | | |m]|]; try reflexivity.
  destruct value; reflexivity.
Qed.

Lemma dict_get_set_same (key : string) (value : pyval) (d : dict) :
  dict_get key (dict_set key value d) = Some value.
Proof.
  induction d as [|[k v] rest IH]; simpl.
  - now rewrite String.eqb_refl.
  - destruct (String.eqb k key) eqn:E; simpl; rewrite E; auto.
Qed.

Lemma dict_get_set_other (key key' : string) (value : pyval) (d : dict) :
  key <> key' -> dict_get key' (dict_set key value d) = dict_get key' d.
Proof.
  intros Hne. induction d as [|[k v] rest IH]; simpl.
  - destruct (String.eqb_spec key key'); [contradiction | reflexivity].
  - destruct (String.eqb_spec k key) as [->|Hk]; simpl.
    + destruct (String.eqb_spec key key'); [contradiction | reflexivity].
    + now rewrite IH.
Qed.

Lemma dict_get_absent (key : string) (d : dict) :
  ~ In key (keys d) -> dict_get key d = None.
Proof.
  induction d as [|[k v] rest IH]; simpl; intros Hn; [reflexivity|].
  destruct (String.eqb_spec k key) as [->|Hk].
  - exfalso. apply Hn. now left.
  - apply IH. intros Hin. apply Hn. now right.
Qed.

Lemma merged_entry_absent (old : option pyval) : merged_entry old None = old.
Proof. destruct old as [[]|]; reflexivity. Qed.

Lemma merge_loop_lookup (items : dict) :
  well_formed items ->
  forall (merged : dict) (key : string),
    dict_get key (merge_loop items merged) =
    merged_entry (dict_get key merged) (dict_get key items).
Proof.
  unfold well_formed.
  induction items as [|[k value] rest IH]; intros Hwf merged key.
  - rewrite merge_loop_nil. simpl. now rewrite merged_entry_absent.
  - simpl in Hwf. inversion Hwf as [|? ? Hnotin Hrest]; subst.
    rewrite merge_loop_cons, (IH Hrest). simpl.
    destruct (String.eqb_spec k key) as [->|Hk].
    + rewrite (dict_get_absent _ _ Hnotin), merged_entry_absent.
      destruct (dict_get key merged) as [[ | | | |m]|];
        try (rewrite dict_get_set_same; reflexivity).
      destruct value; rewrite dict_get_set_same; reflexivity.
    + assert (Hget : forall x, dict_get key (dict_set k x merged)
                               = dict_get key merged)
        by (intros x; now apply dict_get_set_other).
      destruct (dict_get k merged) as [[ | | | |m]|];
        try (rewrite Hget; reflexivity).
      destruct value; rewrite Hget; reflexivity.
Qed.

(** C6.  [deep_merge] is a deep, right-biased merge.  For two mappings that
    are not both empty, the result is a mapping in which every key holds:
    the recursive merge of the two values when both operands hold a
    nested mapping there; otherwise the second operand's value when the
    second operand has the key; otherwise what the first operand holds.
    And on the specification's example, [{"a":{"x":1,"y":2}}] merged with
    [{"a":{"y":3,"z":4}}] is [{"a":{"x":1,"y":3,"z":4}}]. *)
Theorem deep_merge_right_biased :
  (forall d1 d2 : dict,
      d1 <> [] \/ d2 <> [] -> well_formed d2 ->
      exists merged : dict,
        deep_merge (Some d1) (Some d2) = Some merged /\
        forall key : string,
          dict_get key merged =
          match dict_get key d1, dict_get key d2 with
          | Some (PDict m), Some (PDict v) =>
              Some (of_opt_dict (deep_merge (Some m) (Some v)))
          | _, Some value => Some value
          | old, None => old
          end)
  /\ deep_merge
       (Some [("a", PDict [("x", PInt 1); ("y", PInt 2)])])
       (Some [("a", PDict [("y", PInt 3); ("z", PInt 4)])])
     = Some [("a", PDict [("x", PInt 1); ("y", PInt 3); ("z", PInt 4)])].
Proof.
  split; [|reflexivity].
  intros d1 d2 Hne Hwf.
  destruct d1 as [|i1 r1]; [destruct d2 as [|i2 r2]|].
  - destruct Hne; congruence.
  - exists (i2 :: r2). split; [reflexivity|].
    intros key. simpl (dict_get key []).
    now destruct (dict_get key (i2 :: r2)).
  - destruct d2 as [|i2 r2].
    + exists (i1 :: r1). split; [reflexivity|].
      intros key. simpl (dict_get key []).
      now destruct (dict_get key (i1 :: r1)) as [[]|].
    + exists (merge_loop (i2 :: r2) (i1 :: r1)). split; [reflexivity|].
      intros key. rewrite (merge_loop_lookup _ Hwf). unfold merged_entry.
      destruct (dict_get key (i1 :: r1)) as [[]|];
        destruct (dict_get key (i2 :: r2)) as [[]|]; reflexivity.
Qed.

Lemma deep_merge_right_biased_witness :
  exists merged : dict,
    deep_merge (Some [("a", PInt 1); ("b", PDict [("x", PInt 1)])])
               (Some [("b", PDict [("y", PInt 2)]); ("c", PStr "z")])
    = Some merged /\
    dict_get "b" merged = Some (PDict [("x", PInt 1); ("y", PInt 2)]) /\
    dict_get "c" merged = Some (PStr "z") /\
    dict_get "a" merged = Some (PInt 1).
Proof.
  destruct (proj1 deep_merge_right_biased
              [("a", PInt 1); ("b", PDict [("x", PInt 1)])]
              [("b", PDict [("y", PInt 2)]); ("c", PStr "z")])
    as [merged [Hm Hk]].
  - left. discriminate.
  - unfold well_formed. simpl.
    repeat constructor; simpl; intuition discriminate.
  - exists merged. split; [exact Hm|].
    rewrite (Hk "a"), (Hk "b"), (Hk "c"). repeat split; reflexivity.
Defined.

(** C7.  On a non-empty mapping [m], merging with an empty or absent
    mapping on either side gives [m] back. *)
Theorem deep_merge_empty_identity (m : dict) (e : option dict) :
  m <> [] -> empty_or_absent e ->
  deep_merge (Some m) e = Some m /\ deep_merge e (Some m) = Some m.
Proof.
  intros Hm He. apply empty_or_absent_falsy in He.
  pose proof (nonempty_truthy m Hm) as Ht.
  unfold deep_merge, deep_merge_body.
  change (of_opt_dict (Some m)) with (PDict m).
  rewrite Ht, He. split; reflexivity.
Qed.

Lemma deep_merge_empty_identity_witness :
  deep_merge (Some [("Accept", PStr "*/*")]) (Some [])
    = Some [("Accept", PStr "*/*")] /\
  deep_merge (Some []) (Some [("Accept", PStr "*/*")])
    = Some [("Accept", PStr "*/*")].
Proof.
  apply (deep_merge_empty_identity [("Accept", PStr "*/*")] (Some [])).
  - discriminate.
  - right. reflexivity.
Defined.

(** C10.  When both operands are empty or absent, [deep_merge] returns
    [None], not an empty mapping: the merge of two empty header sets is
    the same value as the merge of no headers at all. *)
Theorem deep_merge_both_empty (e1 e2 : option dict) :
  empty_or_absent e1 -> empty_or_absent e2 ->
  deep_merge e1 e2 = None /\ deep_merge e1 e2 = deep_merge None None.
Proof.
  intros H1 H2.
  apply empty_or_absent_falsy in H1. apply empty_or_absent_falsy in H2.
  unfold deep_merge, deep_merge_body. rewrite H1, H2. split; reflexivity.
Qed.

Lemma deep_merge_both_empty_witness :
  deep_merge (Some []) (Some []) = None /\
  deep_merge (Some []) (Some []) = deep_merge None None.
Proof.
  apply (deep_merge_both_empty (Some []) (Some [])); right; reflexivity.
Defined.

End DeepMerge.

(* ================================================================= *)
(** ** Properties of the token state *)

Section Token.
Import Py Eff Spec.

Lemma missing_falsy (s : option string) :
  missing s <-> truthy (of_opt_str s) = false.
Proof.
  unfold missing. split.
  - intros [-> | ->]; reflexivity.
  - destruct s as [[|c s]|]; simpl; intros H;
      [right | discriminate | left]; reflexivity.
Qed.

Lemma present_truthy (s : option string) :
  ~ missing s -> truthy (of_opt_str s) = true.
Proof.
  intros H. destruct (truthy (of_opt_str s)) eqn:E; [reflexivity|].
  exfalso. apply H. now apply missing_falsy.
Qed.

(** The run of [is_token_expired], written out: it returns, leaves the
    controller as it was, and makes no call. *)
Lemma is_token_expired_run (env : Env) (self : Auth.t) (w : World) :
  exists (b : bool) (w' : World),
    Auth.is_token_expired env self w = (Return b, self, w') /\
    trace w' = trace w /\
    b = negb (truthy (Auth.token self))
        || negb (truthy (Auth.of_opt_num (Auth.expiry self)))
        || negb (match Auth.expiry self with
                 | Some e => e >? clock env (time_reads w)
                 | None => false
                 end).
Proof.
  unfold Auth.is_token_expired, bind, get_self, ret, time_time.
  destruct (negb (truthy (Auth.token self))
            || negb (truthy (Auth.of_opt_num (Auth.expiry self)))) eqn:E.
  - exists true, w. repeat split.
  - eexists _, _. repeat split.
Qed.

(** C4, as the code has it.  [is_token_expired] returns [True] exactly
    when the token is falsy ([None], but also an empty string), or the
    expiry is [None] or zero, or the expiry is not strictly greater than
    the current time; it leaves the controller as it was and makes no call.
    An expiry equal to the current time counts as expired. *)
Theorem is_token_expired_exact (env : Env) (self : Auth.t) (w : World) :
  exists (b : bool) (w' : World),
    Auth.is_token_expired env self w = (Return b, self, w') /\
    trace w' = trace w /\
    (b = true <->
       truthy (Auth.token self) = false \/
       Auth.expiry self = None \/ Auth.expiry self = Some 0 \/
       exists e, Auth.expiry self = Some e /\ e <= clock env (time_reads w)) /\
    (Auth.expiry self = Some (clock env (time_reads w)) -> b = true).
Proof.
  destruct (is_token_expired_run env self w) as [b [w' [Hrun [Htr Hb]]]].
  exists b, w'. split; [exact Hrun|]. split; [exact Htr|]. subst b.
  destruct (truthy (Auth.token self)); simpl.
  2:{ split; [split; auto | auto]. }
  destruct (Auth.expiry self) as [e|]; simpl.
  2:{ split; [split; auto | discriminate]. }
  destruct (Z.eqb_spec e 0) as [->|Hz]; simpl.
  { split; [split; auto | auto]. }
  rewrite negb_true_iff, Z.gtb_ltb, Z.ltb_ge. split.
  - split.
    + intros Hle. right. right. right. exists e. auto.
    + intros [H|[H|[H|[e' [H Hle]]]]]; try discriminate; congruence.
  - intros H. injection H as ->. lia.
Qed.

(** C4, as stated, fails: a controller whose token is the empty string
    and whose expiry is ahead of the clock is reported expired, although
    its token is not [None], its expiry is not [None], and its expiry is
    strictly greater than the current time. *)
Lemma is_token_expired_empty_token :
  outcome (Auth.is_token_expired Sample.env Sample.empty_token_auth start)
    = Return true /\
  ~ (Auth.token Sample.empty_token_auth = PNone \/
     Auth.expiry Sample.empty_token_auth = None \/
     exists e, Auth.expiry Sample.empty_token_auth = Some e /\
               ~ e > clock Sample.env (time_reads start)).
Proof.
  split; [reflexivity|].
  intros [H|[H|[e [H Hle]]]]; try discriminate.
  injection H as <-. apply Hle. reflexivity.
Qed.

(** C2, at the failing input.  The auth endpoint answers with a response
    that has [access_token] but no [expires_in]: [auth] raises [KeyError],
    and the controller, which held no token before the call, holds the new
    token after it while its expiry is still unset. *)
Theorem auth_failure_leaves_new_token :
  let run := Auth.auth (Sample.env_with Sample.short_response) None None
               Sample.fresh_auth start in
  outcome run = Raise (KeyError "expires_in") /\
  Auth.token Sample.fresh_auth = PNone /\
  Auth.token (self_after run) = PStr "abc" /\
  Auth.expiry (self_after run) = None /\
  self_after run <> Sample.fresh_auth.
Proof.
  cbv zeta. repeat split; try reflexivity.
  intros H. apply (f_equal Auth.token) in H. discriminate H.
Qed.

(** The failures that come before the first assignment leave the
    controller as it was: an [error] key in the response. *)
Lemma auth_error_key_keeps_state
    (env : Env) (self : Auth.t) (h p : option dict) (w : World)
    (status : Z) (d : dict) :
  ~ missing (Auth.base_api self) -> ~ missing (Auth.endpoint self) ->
  (forall c, transport env (List.length (trace w)) c
             = Responds {| status_code := status; body := Some (PDict d) |}) ->
  dict_mem "error" d = true ->
  outcome (Auth.auth env h p self w)
    = Raise (Exception "An error occurred during auth" [PDict d]) /\
  self_after (Auth.auth env h p self w) = self.
Proof.
  intros Hb He Ht Herr.
  apply present_truthy in Hb. apply present_truthy in He.
  unfold Auth.auth, bind, get_self, raise_if, session_call.
  rewrite Hb, He. simpl. rewrite Ht. simpl. rewrite Herr. simpl.
  split; reflexivity.
Qed.

(** ... and a response without [access_token]. *)
Lemma auth_missing_access_token_keeps_state
    (env : Env) (self : Auth.t) (h p : option dict) (w : World)
    (status : Z) (d : dict) :
  ~ missing (Auth.base_api self) -> ~ missing (Auth.endpoint self) ->
  (forall c, transport env (List.length (trace w)) c
             = Responds {| status_code := status; body := Some (PDict d) |}) ->
  dict_mem "error" d = false -> dict_get "access_token" d = None ->
  outcome (Auth.auth env h p self w) = Raise (KeyError "access_token") /\
  self_after (Auth.auth env h p self w) = self.
Proof.
  intros Hb He Ht Herr Htok.
  apply present_truthy in Hb. apply present_truthy in He.
  unfold Auth.auth, bind, get_self, raise_if, session_call.
  rewrite Hb, He. simpl. rewrite Ht. simpl. rewrite Herr. simpl.
  rewrite Htok. split; reflexivity.
Qed.

End Token.

(* ================================================================= *)
(** ** Properties of [Client.request] *)

Section Request.
Import Py Eff Spec.

Lemma string_neq_eqb (a b : string) : a <> b -> (a =? b)%string = false.
Proof. intros H. now apply String.eqb_neq. Qed.

(** C9.  A request on a client whose [base_api] is missing, or with a
    missing endpoint, raises at once: the client and the world are what
    they were, so no token was refreshed, the clock was not read and no
    call went out.  [Auth.auth] does the same when the [base_api] or the
    [endpoint] of the controller is missing. *)
Theorem config_error_before_any_call (env : Env) :
  (forall (self : Client.t) (method : string) (endpoint : option string)
          (headers payload params : option dict) (w : World),
      missing (Client.base_api self) \/ missing endpoint ->
      exists msg : string,
        Client.request env method endpoint headers payload params self w
        = (Raise (Exception msg []), self, w))
  /\
  (forall (self : Auth.t) (headers payload : option dict) (w : World),
      missing (Auth.base_api self) \/ missing (Auth.endpoint self) ->
      exists msg : string,
        Auth.auth env headers payload self w
        = (Raise (Exception msg []), self, w)).
Proof.
  split.
  - intros self method endpoint headers payload params w H.
    unfold Client.request, bind, get_self, raise_if.
    destruct (truthy (of_opt_str (Client.base_api self))) eqn:Hb; simpl.
    + destruct H as [H|H]; apply missing_falsy in H; [congruence|].
      rewrite H. simpl. eexists. reflexivity.
    + eexists. reflexivity.
  - intros self headers payload w H.
    unfold Auth.auth, bind, get_self, raise_if.
    destruct (truthy (of_opt_str (Auth.base_api self))) eqn:Hb; simpl.
    + destruct H as [H|H]; apply missing_falsy in H; [congruence|].
      rewrite H. simpl. eexists. reflexivity.
    + eexists. reflexivity.
Qed.

Lemma config_error_before_any_call_witness :
  (exists msg : string,
      Client.request Sample.env "get" (Some "") None None None
        (Sample.client_of (Some Sample.fresh_auth)) start
      = (Raise (Exception msg []),
         Sample.client_of (Some Sample.fresh_auth), start))
  /\
  (exists msg : string,
      Auth.auth Sample.env None None (Auth.init None (Some "/token") None None)
        start
      = (Raise (Exception msg []),
         Auth.init None (Some "/token") None None, start)).
Proof.
  split.
  - apply (proj1 (config_error_before_any_call Sample.env)).
    right. right. reflexivity.
  - apply (proj2 (config_error_before_any_call Sample.env)).
    left. left. reflexivity.
Defined.

(** C1, as the code has it.  With [base_api] and the endpoint present, and
    no controller attached or a token that is still valid, a request whose
    method is neither ["get"] nor ["post"] sends nothing, leaves the client
    as it was, and returns [None] without raising. *)
Theorem request_other_method_returns_none
    (env : Env) (self : Client.t) (method : string) (endpoint : option string)
    (headers payload params : option dict) (w : World) :
  method <> "get" -> method <> "post" ->
  ~ missing (Client.base_api self) -> ~ missing endpoint ->
  (Client.auth self = None \/
   exists a, Client.auth self = Some a /\
             outcome (Auth.is_token_expired env a w) = Return false) ->
  exists w' : World,
    Client.request env method endpoint headers payload params self w
    = (Return None, self, w') /\
    trace w' = trace w.
Proof.
  intros Hget Hpost Hb He Hauth.
  apply present_truthy in Hb. apply present_truthy in He.
  apply string_neq_eqb in Hget. apply string_neq_eqb in Hpost.
  destruct self as [cb ca cs]. simpl in *.
  unfold Client.request, bind, get_self, raise_if. simpl.
  rewrite Hb, He. simpl.
  destruct Hauth as [-> | [a [-> Hvalid]]].
  - unfold ret. rewrite Hpost, Hget. exists w. split; reflexivity.
  - destruct (is_token_expired_run env a w) as [b [w1 [Hrun [Htr _]]]].
    unfold Client.on_auth, bind, get_self, ret. simpl.
    rewrite Hrun in Hvalid |- *. simpl in Hvalid. injection Hvalid as ->.
    rewrite Hpost, Hget. exists w1. split; [reflexivity | exact Htr].
Qed.

Lemma request_other_method_returns_none_witness :
  exists w' : World,
    Client.request Sample.env "DELETE" (Some "/v1/data") None None None
      (Sample.client_of (Some Sample.valid_auth)) start
    = (Return None, Sample.client_of (Some Sample.valid_auth), w') /\
    trace w' = trace start.
Proof.
  apply (request_other_method_returns_none Sample.env
           (Sample.client_of (Some Sample.valid_auth)) "DELETE").
  - discriminate.
  - discriminate.
  - intros [H|H]; discriminate H.
  - intros [H|H]; discriminate H.
  - right. exists Sample.valid_auth. split; reflexivity.
Defined.

(** C1, as stated, fails: a [DELETE] request on a configured client
    without a controller returns [None]; it raises nothing. *)
Lemma request_delete_is_silent :
  outcome (Client.request Sample.env "DELETE" (Some "/v1/data") None None None
             (Sample.client_of None) start) = Return None /\
  ~ exists e : exn,
      outcome (Client.request Sample.env "DELETE" (Some "/v1/data")
                 None None None (Sample.client_of None) start) = Raise e.
Proof.
  split; [reflexivity|]. intros [e H]. discriminate H.
Qed.


End Request.

(* ================================================================= *)
(** ** Properties of the transport: cipher policy and retry policy *)

Section Transport.
Import Py Eff Spec.

Lemma directive_nonempty (s : string) :
  str_contains "@SECLEVEL" s = true -> truthy (PStr s) = true.
Proof. destruct s; [discriminate | reflexivity]. Qed.

Lemma in_range_6 (z : Z) :
  SSLCiphers.in_range 6 (PInt z) = true <-> 0 <= z <= 5.
Proof.
  unfold SSLCiphers.in_range. simpl.
  rewrite andb_true_iff, Z.leb_le, Z.ltb_lt. lia.
Qed.

(** What [SSLCiphers.__init__] does with a cipher list that is [None] or a
    string, and an integer level: (1) without the directive in the list and
    with a level in [0,5], when OpenSSL takes the resulting string, it
    creates one context, turns hostname checking off, sets the cipher list
    followed by the level directive, and returns the adapter; (2) on a
    level outside [0,5] it raises a [TypeError] or a [ValueError]; (3) on a
    string that holds ["@SECLEVEL"] it raises [ValueError]; (4) on a truthy
    value that is not a string it raises [TypeError].  In the three
    failures nothing was created: the world is what it was. *)
Lemma ssl_ciphers_init_checks
    {S : Type} (env : Env) (retries : option SSLCiphers.Retry)
    (self : S) (w : World) :
  (forall (cipher_list : pyval) (z : Z),
      (cipher_list = PNone \/
       exists s, cipher_list = PStr s /\ str_contains "@SECLEVEL" s = false) ->
      0 <= z <= 5 ->
      set_ciphers_ok env (cipher_string env cipher_list z) = true ->
      SSLCiphers.init env cipher_list (PInt z) retries self w
      = (Return
           {| SSLCiphers.ssl_context :=
                {| SSLCiphers.check_hostname := false;
                   SSLCiphers.ciphers :=
                     Some (cipher_string env cipher_list z) |};
              SSLCiphers.max_retries := retries |},
         self,
         {| trace := (trace w ++ [CreateDefaultContext]
                      ++ [SetCiphers (cipher_string env cipher_list z)])%list;
            time_reads := time_reads w |}))
  /\
  (forall (cipher_list : pyval) (z : Z),
      ~ 0 <= z <= 5 ->
      exists e : exn,
        SSLCiphers.init env cipher_list (PInt z) retries self w
        = (Raise e, self, w) /\ invalid_argument e)
  /\
  (forall (s : string) (level : pyval),
      str_contains "@SECLEVEL" s = true ->
      exists msg : string,
        SSLCiphers.init env (PStr s) level retries self w
        = (Raise (ValueError msg), self, w))
  /\
  (forall cipher_list level : pyval,
      truthy cipher_list = true -> is_str cipher_list = false ->
      exists msg : string,
        SSLCiphers.init env cipher_list level retries self w
        = (Raise (TypeError msg), self, w)).
Proof.
  repeat split.
  - intros cipher_list z Hacc Hz Hok.
    apply in_range_6 in Hz.
    unfold cipher_string in *.
    unfold SSLCiphers.init, SSLCiphers.create_default_context,
      SSLCiphers.set_ciphers, bind, raise_if, emit, ret.
    destruct Hacc as [-> | [s [-> Hs]]].
    + simpl in Hok |- *. rewrite Hz. simpl. rewrite Hok.
      now rewrite <- app_assoc.
    + destruct (truthy (PStr s)) eqn:Ht; simpl in Hok |- *; rewrite ?Hs;
        simpl; rewrite Hz; simpl; rewrite Hok; now rewrite <- app_assoc.
  - intros cipher_list z Hz.
    assert (Hr : SSLCiphers.in_range 6 (PInt z) = false).
    { destruct (SSLCiphers.in_range 6 (PInt z)) eqn:E; [|reflexivity].
      apply in_range_6 in E. contradiction. }
    unfold SSLCiphers.init, bind, raise_if.
    destruct (truthy cipher_list) eqn:Ht; simpl.
    + destruct (is_str cipher_list); simpl.
      * destruct (str_contains "@SECLEVEL" (py_str env cipher_list)); simpl.
        -- eexists. split; [reflexivity | exact I].
        -- rewrite Hr. simpl. eexists. split; [reflexivity | exact I].
      * eexists. split; [reflexivity | exact I].
    + rewrite Hr. simpl. eexists. split; [reflexivity | exact I].
  - intros s level Hs.
    unfold SSLCiphers.init, bind, raise_if.
    rewrite (directive_nonempty s Hs). simpl. rewrite Hs. simpl.
    eexists. reflexivity.
  - intros cipher_list level Ht Hn.
    unfold SSLCiphers.init, bind, raise_if.
    rewrite Ht, Hn. simpl. eexists. reflexivity.
Qed.

(** C5, at the failing inputs.  (1) The cipher list [0] is provided and is
    not a string, yet it passes: the string check sits under
    [if cipher_list:], so the adapter is built on the default cipher list,
    while the cipher list [7], also not a string, raises [TypeError].
    (2) The security level [True] is an [int] in [0,5], yet construction
    fails: the directive reads [@SECLEVEL=True], and when OpenSSL refuses
    it the [SSLError] comes after the TLS context was created. *)
Theorem ssl_ciphers_init_slips :
  (PInt 0 <> PNone /\ is_str (PInt 0) = false /\
   SSLCiphers.init Sample.env (PInt 0) (PInt 5) None tt start
   = (Return
        {| SSLCiphers.ssl_context :=
             {| SSLCiphers.check_hostname := false;
                SSLCiphers.ciphers := Some "DEFAULT:@SECLEVEL=5" |};
           SSLCiphers.max_retries := None |},
      tt,
      {| trace := [CreateDefaultContext; SetCiphers "DEFAULT:@SECLEVEL=5"];
         time_reads := 0 |}) /\
   SSLCiphers.init Sample.env (PInt 7) (PInt 5) None tt start
   = (Raise (TypeError "Expected cipher_list to be a str, not 7"), tt, start))
  /\
  (is_int (PBool true) = true /\
   SSLCiphers.in_range 6 (PBool true) = true /\
   SSLCiphers.init Sample.digits_env PNone (PBool true) None tt start
   = (Raise SSLError, tt,
      {| trace := [CreateDefaultContext; SetCiphers "DEFAULT:@SECLEVEL=True"];
         time_reads := 0 |})).
Proof.
  split.
  - split; [discriminate|]. repeat split.
  - repeat split.
Qed.

End Transport.

(* ================================================================= *)
(** ** More on [deep_merge] and [value_or_none] *)

Section MergedKeys.
Import Py Utils Spec.

Lemma dict_mem_keys (key : string) (d : dict) :
  dict_mem key d = true <-> In key (keys d).
Proof.
  unfold dict_mem. induction d as [|[k v] rest IH]; simpl.
  - split; [discriminate | contradiction].
  - destruct (String.eqb_spec k key) as [->|Hk].
    + split; auto.
    + rewrite IH. split; [auto | intros [H|H]; [contradiction | exact H]].
Qed.

Lemma keys_dict_set (key : string) (value : pyval) (d : dict) :
  keys (dict_set key value d)
  = if dict_mem key d then keys d else (keys d ++ [key])%list.
Proof.
  unfold dict_mem. induction d as [|[k v] rest IH]; simpl; [reflexivity|].
  destruct (String.eqb_spec k key) as [->|Hk]; simpl; [reflexivity|].
  rewrite IH. now destruct (dict_get key rest).
Qed.

Lemma dict_mem_set (key key' : string) (value : pyval) (d : dict) :
  dict_mem key' (dict_set key value d)
  = (key =? key')%string || dict_mem key' d.
Proof.
  unfold dict_mem. destruct (String.eqb_spec key key') as [->|Hne].
  - now rewrite dict_get_set_same.
  - now rewrite dict_get_set_other.
Qed.

(** The keys the loop leaves in [merged]: those it had, in their order,
    then the new keys of [items], in theirs. *)
Lemma merge_loop_keys (items : dict) :
  well_formed items ->
  forall merged : dict,
    keys (merge_loop items merged)
    = (keys merged
       ++ filter (fun k => negb (dict_mem k merged)) (keys items))%list.
Proof.
  unfold well_formed.
  induction items as [|[k value] rest IH]; intros Hwf merged.
  - rewrite merge_loop_nil. simpl. now rewrite app_nil_r.
  - simpl in Hwf. inversion Hwf as [|? ? Hnotin Hrest]; subst.
    rewrite merge_loop_cons.
    set (merged' := match dict_get k merged, value with
                    | Some (PDict m), PDict v =>
                        dict_set k
                          (of_opt_dict (deep_merge (Some m) (Some v))) merged
                    | _, _ => dict_set k value merged
                    end).
    assert (Hset : exists x, merged' = dict_set k x merged).
    { unfold merged'. destruct (dict_get k merged) as [[ | | | |m]|];
        try (eexists; reflexivity).
      destruct value; eexists; reflexivity. }
    destruct Hset as [x Hset]. rewrite (IH Hrest merged'), Hset.
    rewrite keys_dict_set.
    assert (Hfilter :
      filter (fun k0 => negb (dict_mem k0 (dict_set k x merged))) (keys rest)
      = filter (fun k0 => negb (dict_mem k0 merged)) (keys rest)).
    { apply filter_ext_in. intros k0 Hin. rewrite dict_mem_set.
      destruct (String.eqb_spec k k0) as [->|Hne]; [contradiction|reflexivity]. }
    rewrite Hfilter. simpl.
    destruct (dict_mem k merged); simpl; [reflexivity|].
    now rewrite <- app_assoc.
Qed.

(** X1.  The entries of a merge come in insertion order: for two non-empty
    mappings, the keys of [deep_merge(d1, d2)] are the keys of [d1] in
    their order, followed by the keys that only [d2] has, in the order [d2]
    has them. *)
Theorem deep_merge_key_order (d1 d2 merged : dict) :
  d1 <> [] -> d2 <> [] -> well_formed d2 ->
  deep_merge (Some d1) (Some d2) = Some merged ->
  keys merged
  = (keys d1 ++ filter (fun k => negb (dict_mem k d1)) (keys d2))%list.
Proof.
  intros H1 H2 Hwf.
  destruct d1 as [|i1 r1]; [congruence|].
  destruct d2 as [|i2 r2]; [congruence|].
  unfold deep_merge, deep_merge_body. simpl.
  intros H. injection H as <-. now apply merge_loop_keys.
Qed.

Lemma deep_merge_key_order_witness :
  keys [("Authorization", PStr "Bearer abc"); ("Accept", PStr "*/*");
        ("X-Id", PStr "7")]
  = (keys [("Authorization", PStr "Bearer abc"); ("Accept", PStr "text/html")]
     ++ filter
          (fun k => negb (dict_mem k [("Authorization", PStr "Bearer abc");
                                      ("Accept", PStr "text/html")]))
          (keys [("X-Id", PStr "7"); ("Accept", PStr "*/*")]))%list.
Proof.
  apply (deep_merge_key_order
           [("Authorization", PStr "Bearer abc"); ("Accept", PStr "text/html")]
           [("X-Id", PStr "7"); ("Accept", PStr "*/*")]).
  - discriminate.
  - discriminate.
  - unfold well_formed. simpl.
    repeat constructor; simpl; intuition discriminate.
  - reflexivity.
Defined.

(** X2.  An empty nested mapping on both sides does not stay an empty
    mapping: when both operands hold [{}] under a key, the merge holds
    [None] under that key. *)
Theorem deep_merge_nested_empty_is_none (d1 d2 merged : dict) (key : string) :
  well_formed d2 ->
  dict_get key d1 = Some (PDict []) -> dict_get key d2 = Some (PDict []) ->
  deep_merge (Some d1) (Some d2) = Some merged ->
  dict_get key merged = Some PNone.
Proof.
  intros Hwf H1 H2.
  destruct d1 as [|i1 r1]; [discriminate H1|].
  destruct d2 as [|i2 r2]; [discriminate H2|].
  unfold deep_merge, deep_merge_body. simpl negb. simpl andb. cbv iota.
  intros H. injection H as <-.
  rewrite (merge_loop_lookup _ Hwf), H1, H2. reflexivity.
Qed.

Lemma deep_merge_nested_empty_is_none_witness :
  dict_get "params"
    [("params", PNone); ("lang", PStr "it")] = Some PNone.
Proof.
  apply (deep_merge_nested_empty_is_none
           [("params", PDict [])] [("params", PDict []); ("lang", PStr "it")]).
  - unfold well_formed. simpl.
    repeat constructor; simpl; intuition discriminate.
  - reflexivity.
  - reflexivity.
  - reflexivity.
Defined.

(** Induction on a value with the mappings it nests. *)
Definition pyval_nested_ind (P : pyval -> Prop)
    (none : P PNone) (bools : forall b, P (PBool b))
    (ints : forall z, P (PInt z)) (strs : forall s, P (PStr s))
    (dicts : forall items,
        Forall (fun item => P (snd item)) items -> P (PDict items))
  : forall v, P v :=
  fix nested (v : pyval) : P v :=
    match v with
    | PNone => none
    | PBool b => bools b
    | PInt z => ints z
    | PStr s => strs s
    | PDict items =>
        dicts items
          (list_ind (fun l => Forall (fun item => P (snd item)) l)
             (Forall_nil _)
             (fun item rest all =>
                Forall_cons item (nested (snd item)) all)
             items)
    end.

Lemma dict_get_in (key : string) (value : pyval) (d : dict) :
  well_formed d -> In (key, value) d -> dict_get key d = Some value.
Proof.
  unfold well_formed.
  induction d as [|[k v] rest IH]; simpl; intros Hwf Hin; [contradiction|].
  inversion Hwf as [|? ? Hnotin Hrest]; subst.
  destruct Hin as [Heq|Hin].
  - injection Heq as -> ->. now rewrite String.eqb_refl.
  - destruct (String.eqb_spec k key) as [->|Hk]; [|now apply IH].
    exfalso. apply Hnotin. unfold keys.
    change key with (fst (key, value)). now apply in_map.
Qed.

Lemma dict_set_same_value (key : string) (value : pyval) (d : dict) :
  dict_get key d = Some value -> dict_set key value d = d.
Proof.
  induction d as [|[k v] rest IH]; simpl; [discriminate|].
  destruct (String.eqb_spec k key) as [->|Hk].
  - intros H. now injection H as ->.
  - intros H. now rewrite IH.
Qed.

Lemma filled_items (items : dict) (key : string) (value : pyval) :
  filled (PDict items) -> In (key, value) items -> filled value.
Proof.
  intros [_ [_ Heach]]. revert Heach.
  induction items as [|[k v] rest IH]; simpl; [contradiction|].
  intros [Hv Hrest] [Heq|Hin].
  - now injection Heq as _ <-.
  - now apply IH.
Qed.

(** A loop over items that [merged] already holds, each of which merges
    with itself into itself, changes nothing. *)
Lemma merge_loop_fixed (items merged : dict) :
  (forall key value, In (key, value) items ->
     dict_get key merged = Some value /\
     match value with
     | PDict m => deep_merge (Some m) (Some m) = Some m
     | _ => True
     end) ->
  merge_loop items merged = merged.
Proof.
  induction items as [|[k value] rest IH]; intros Hall.
  - apply merge_loop_nil.
  - rewrite merge_loop_cons.
    destruct (Hall k value (or_introl eq_refl)) as [Hget Hself].
    rewrite Hget.
    assert (Hsame :
      match value with
      | PDict m =>
          match value with
          | PDict v =>
              dict_set k (of_opt_dict (deep_merge (Some m) (Some v))) merged
          | _ => dict_set k value merged
          end
      | _ => dict_set k value merged
      end = merged).
    { destruct value; try (now apply dict_set_same_value).
      rewrite Hself. now apply dict_set_same_value. }
    rewrite Hsame. apply IH. intros key v Hin. apply Hall. now right.
Qed.

Lemma deep_merge_self_filled (v : pyval) :
  filled v ->
  match v with
  | PDict m => deep_merge (Some m) (Some m) = Some m
  | _ => True
  end.
Proof.
  induction v as [ | | | |items IH] using pyval_nested_ind; try exact (fun _ => I).
  intros Hfilled. pose proof Hfilled as [Hne [Hnodup _]].
  unfold deep_merge, deep_merge_body.
  change (of_opt_dict (Some items)) with (PDict items).
  rewrite (nonempty_truthy items Hne). simpl.
  f_equal. apply merge_loop_fixed.
  intros key value Hin. split.
  - now apply dict_get_in.
  - rewrite Forall_forall in IH. apply (IH (key, value) Hin).
    now apply (filled_items items key).
Qed.

(** X3.  Merging a mapping with itself gives it back, when every mapping
    in it, at every depth, is non-empty. *)
Theorem deep_merge_idempotent (d : dict) :
  filled (PDict d) -> deep_merge (Some d) (Some d) = Some d.
Proof. apply (deep_merge_self_filled (PDict d)). Qed.

Lemma deep_merge_idempotent_witness :
  deep_merge
    (Some [("a", PDict [("x", PInt 1); ("y", PDict [("z", PNone)])]);
           ("b", PStr "")])
    (Some [("a", PDict [("x", PInt 1); ("y", PDict [("z", PNone)])]);
           ("b", PStr "")])
  = Some [("a", PDict [("x", PInt 1); ("y", PDict [("z", PNone)])]);
          ("b", PStr "")].
Proof.
  apply (deep_merge_idempotent
           [("a", PDict [("x", PInt 1); ("y", PDict [("z", PNone)])]);
            ("b", PStr "")]).
  simpl. repeat split; try discriminate;
    repeat constructor; simpl; intuition discriminate.
Defined.

(** X4.  Looking a key up with a default in a merge: [value_or_none] on
    [deep_merge(d1, d2)] gives the merged nested mapping where both hold
    one, else what [d2] holds, else what [d1] holds, and the default only
    for a key neither has. *)
Theorem value_or_none_of_merge
    (d1 d2 merged : dict) (key : string) (default : pyval) :
  d1 <> [] -> d2 <> [] -> well_formed d2 ->
  deep_merge (Some d1) (Some d2) = Some merged ->
  value_or_none merged key default
  = match dict_get key d1, dict_get key d2 with
    | Some (PDict m), Some (PDict v) =>
        of_opt_dict (deep_merge (Some m) (Some v))
    | _, Some value => value
    | Some old, None => old
    | None, None => default
    end.
Proof.
  intros H1 H2 Hwf.
  destruct d1 as [|i1 r1]; [congruence|].
  destruct d2 as [|i2 r2]; [congruence|].
  unfold deep_merge, deep_merge_body. simpl negb. simpl andb. cbv iota.
  intros H. injection H as <-.
  unfold value_or_none, dict_mem.
  rewrite (merge_loop_lookup _ Hwf). unfold merged_entry.
  destruct (dict_get key (i1 :: r1)) as [[]|];
    destruct (dict_get key (i2 :: r2)) as [[]|]; reflexivity.
Qed.

Lemma value_or_none_of_merge_witness :
  value_or_none [("Accept", PStr "*/*"); ("X-Id", PStr "7")] "X-Id" PNone
  = PStr "7" /\
  value_or_none [("Accept", PStr "*/*"); ("X-Id", PStr "7")] "Host" (PStr "-")
  = PStr "-".
Proof.
  split.
  - apply (value_or_none_of_merge
             [("Accept", PStr "text/html")]
             [("Accept", PStr "*/*"); ("X-Id", PStr "7")]).
    + discriminate.
    + discriminate.
    + unfold well_formed. simpl.
      repeat constructor; simpl; intuition discriminate.
    + reflexivity.
  - apply (value_or_none_of_merge
             [("Accept", PStr "text/html")]
             [("Accept", PStr "*/*"); ("X-Id", PStr "7")]).
    + discriminate.
    + discriminate.
    + unfold well_formed. simpl.
      repeat constructor; simpl; intuition discriminate.
    + reflexivity.
Defined.

(** X5.  Item assignment and lookup with a default: after [d[key] = value],
    [value_or_none] gives [value] under [key], whatever the default and
    also when [value] is [None], and gives for every other key what it
    gave before. *)
Theorem value_or_none_after_set
    (d : dict) (key key' : string) (value default : pyval) :
  value_or_none (dict_set key value d) key' default
  = if (key =? key')%string then value else value_or_none d key' default.
Proof.
  unfold value_or_none, dict_mem.
  destruct (String.eqb_spec key key') as [->|Hne].
  - now rewrite dict_get_set_same.
  - now rewrite dict_get_set_other.
Qed.

End MergedKeys.

(* ================================================================= *)
(** ** Properties of [run_detached_subprocess] *)

Section DetachedRuns.
Import Detached.

(** X6.  The path is checked before anything else: a path that is not a
    file gives [-1], a file that is not executable gives [-2], on every
    system and for every [args] (also [None]), and nothing is started. *)
Theorem run_detached_checks_path_first
    (os : Os) (command subprocess_path : string) (args : option (list string)) :
  (isfile os subprocess_path = false ->
   run_detached_subprocess os command subprocess_path args = (Returned (-1), []))
  /\
  (isfile os subprocess_path = true -> access_x_ok os subprocess_path = false ->
   run_detached_subprocess os command subprocess_path args = (Returned (-2), [])).
Proof.
  unfold run_detached_subprocess. split.
  - intros ->. reflexivity.
  - intros -> ->. reflexivity.
Qed.

Lemma run_detached_checks_path_first_witness :
  run_detached_subprocess linux "sh" "/nowhere" None = (Returned (-1), []) /\
  run_detached_subprocess linux "sh" "/etc/motd" None = (Returned (-2), []).
Proof.
  split.
  - apply (proj1 (run_detached_checks_path_first linux "sh" "/nowhere" None)).
    reflexivity.
  - apply (proj2 (run_detached_checks_path_first linux "sh" "/etc/motd" None));
      reflexivity.
Defined.

(** X7.  A process is started exactly when the call returns 1, 2 or 3,
    and then it is one process, which the system decides: 1 only on
    Windows, [start cmd /c] through a shell; 2 only on Darwin,
    [open -a Terminal] without a shell; 3 only on Linux,
    [x-terminal-emulator -e] without a shell; each followed by the command,
    the path and the arguments in this order.  A call that returns -1, -2
    or 0 has started nothing (0 only on another system), and so has a call
    that raises. *)
Theorem run_detached_starts_iff_positive
    (os : Os) (command subprocess_path : string) (args : option (list string)) :
  match run_detached_subprocess os command subprocess_path args with
  | (Returned code, started) =>
      (code = -1 /\ isfile os subprocess_path = false /\ started = []) \/
      (code = -2 /\ access_x_ok os subprocess_path = false /\ started = []) \/
      (code = 0 /\ system os <> "Windows" /\ system os <> "Darwin" /\
       system os <> "Linux" /\ started = []) \/
      exists a : list string,
        args = Some a /\
        ((code = 1 /\ system os = "Windows" /\
          started = [{| argv := (["start"; "cmd"; "/c"; command;
                                  subprocess_path] ++ a)%list;
                        shell := true |}]) \/
         (code = 2 /\ system os = "Darwin" /\
          started = [{| argv := (["open"; "-a"; "Terminal"; command;
                                  subprocess_path] ++ a)%list;
                        shell := false |}]) \/
         (code = 3 /\ system os = "Linux" /\
          started = [{| argv := (["x-terminal-emulator"; "-e"; command;
                                  subprocess_path] ++ a)%list;
                        shell := false |}]))
  | (_, started) => started = []
  end.
Proof.
  unfold run_detached_subprocess, popen_then_return, list_add.
  destruct (isfile os subprocess_path) eqn:Hfile; simpl; [|now left].
  destruct (access_x_ok os subprocess_path) eqn:Hx; simpl;
    [|right; now left].
  destruct (String.eqb_spec (system os) "Windows") as [Hw|Hw].
  { destruct args as [a|]; [|reflexivity].
    destruct (popen_starts os _ _); [|reflexivity].
    right. right. right. exists a. split; [reflexivity|]. now left. }
  destruct (String.eqb_spec (system os) "Darwin") as [Hd|Hd].
  { destruct args as [a|]; [|reflexivity].
    destruct (popen_starts os _ _); [|reflexivity].
    right. right. right. exists a. split; [reflexivity|]. right. now left. }
  destruct (String.eqb_spec (system os) "Linux") as [Hl|Hl].
  { destruct args as [a|]; [|reflexivity].
    destruct (popen_starts os _ _); [|reflexivity].
    right. right. right. exists a. split; [reflexivity|]. right. now right. }
  right. right. left. repeat split; assumption.
Qed.

(** X8.  [args=None] is not the same as no arguments: with an executable
    file, on Windows, Darwin and Linux the call raises [TypeError] before
    any process is started; on any other system it returns 0. *)
Theorem run_detached_args_none
    (os : Os) (command subprocess_path : string) :
  isfile os subprocess_path = true -> access_x_ok os subprocess_path = true ->
  run_detached_subprocess os command subprocess_path None
  = if (system os =? "Windows")%string || (system os =? "Darwin")%string
       || (system os =? "Linux")%string
    then (RaisedTypeError, [])
    else (Returned 0, []).
Proof.
  intros Hf Hx. unfold run_detached_subprocess. rewrite Hf, Hx. simpl.
  destruct (system os =? "Windows")%string; [reflexivity|].
  destruct (system os =? "Darwin")%string; [reflexivity|].
  destruct (system os =? "Linux")%string; reflexivity.
Qed.

Lemma run_detached_args_none_witness :
  run_detached_subprocess linux "sh" "/usr/bin/tool" None
  = (RaisedTypeError, []).
Proof.
  apply (run_detached_args_none linux "sh" "/usr/bin/tool"); reflexivity.
Defined.

End DetachedRuns.

(* ================================================================= *)
(** ** More on the controller *)

Section Exchange.
Import Py Eff Spec Runs.

(** Whole numbers below [2 ^ 53] are floats, and so are their sums. *)
Lemma round_float_exact (z : Z) : Z.abs z < 2 ^ 53 -> round_float z = z.
Proof.
  intros Hz. unfold round_float.
  assert (Hshift : (Z.log2 (Z.abs z) - 52 <=? 0) = true).
  { apply Z.leb_le. destruct (Z.eq_dec (Z.abs z) 0) as [-> | Hnz].
    - simpl. lia.
    - assert (Hpos : 0 < Z.abs z) by lia.
      apply (Z.log2_lt_pow2 _ 53 Hpos) in Hz. lia. }
  cbv zeta. now rewrite Hshift.
Qed.

Lemma float_of_int_exact (z : Z) : Z.abs z < 2 ^ 53 -> float_of_int z = Some z.
Proof.
  intros Hz. unfold float_of_int.
  assert (Hlimit : 2 ^ 53 <= float_limit) by (apply Z.leb_le; reflexivity).
  assert (Hin : (float_limit <=? Z.abs z) = false) by (apply Z.leb_gt; lia).
  now rewrite Hin, round_float_exact.
Qed.

(** The run of a successful exchange, written out: the expiry is the
    float sum of the clock and the time-to-live. *)
Lemma auth_success_run
    (env : Env) (self : Auth.t) (h p : option dict) (w : World)
    (status : Z) (d : dict) (token : pyval) (ttl f : Z)
    (token_type country : pyval) :
  ~ missing (Auth.base_api self) -> ~ missing (Auth.endpoint self) ->
  transport env (List.length (trace w)) (exchange_call self h p)
  = Responds {| status_code := status; body := Some (PDict d) |} ->
  token_body d token ttl token_type country ->
  float_of_int ttl = Some f ->
  Auth.auth env h p self w
  = (Return (PDict d),
     refreshed self token (round_float (clock env (time_reads w) + f))
       token_type country,
     after_clock (after_event w (SessionCall InAuth (exchange_call self h p)))).
Proof.
  intros Hb He Ht [Herr [Htok [Httl [Hty Hco]]]] Hf.
  apply present_truthy in Hb. apply present_truthy in He.
  unfold exchange_call in Ht.
  unfold Auth.auth, bind, get_self, raise_if, session_call.
  rewrite Hb, He. simpl. rewrite Ht. simpl. rewrite Herr. simpl.
  rewrite Htok. simpl. rewrite Httl. simpl. rewrite Hf. simpl.
  rewrite Hty. simpl. rewrite Hco. reflexivity.
Qed.

(** The same run when neither the time-to-live nor the sum is rounded. *)
Lemma auth_success_exact_run
    (env : Env) (self : Auth.t) (h p : option dict) (w : World)
    (status : Z) (d : dict) (token : pyval) (ttl : Z)
    (token_type country : pyval) :
  ~ missing (Auth.base_api self) -> ~ missing (Auth.endpoint self) ->
  transport env (List.length (trace w)) (exchange_call self h p)
  = Responds {| status_code := status; body := Some (PDict d) |} ->
  token_body d token ttl token_type country ->
  small ttl -> small (clock env (time_reads w) + ttl) ->
  Auth.auth env h p self w
  = (Return (PDict d),
     refreshed self token (clock env (time_reads w) + ttl) token_type country,
     after_clock (after_event w (SessionCall InAuth (exchange_call self h p)))).
Proof.
  intros Hb He Ht Hbody Httl Hsum.
  rewrite (auth_success_run env self h p w status d token ttl ttl token_type
             country Hb He Ht Hbody (float_of_int_exact ttl Httl)).
  now rewrite (round_float_exact _ Hsum).
Qed.

(** X9.  A successful exchange.  With a complete configuration, when the
    auth endpoint answers with a body that has no [error] key and holds the
    four fields, [expires_in] being an integer small enough that neither it
    nor its sum with the clock is rounded as a float (both below [2 ^ 53]),
    [auth] makes one [post] to [base_api + endpoint] (with the override
    headers and payload when they are non-empty, the stored ones
    otherwise), reads the clock once, stores the token, the token type and
    the country as received and [now + expires_in] as expiry, leaves the
    configuration alone, and returns the body. *)
Theorem auth_success_sets_state
    (env : Env) (self : Auth.t) (h p : option dict) (w : World)
    (status : Z) (d : dict) (token : pyval) (ttl : Z)
    (token_type country : pyval) :
  ~ missing (Auth.base_api self) -> ~ missing (Auth.endpoint self) ->
  transport env (List.length (trace w)) (exchange_call self h p)
  = Responds {| status_code := status; body := Some (PDict d) |} ->
  token_body d token ttl token_type country ->
  small ttl -> small (clock env (time_reads w) + ttl) ->
  Auth.auth env h p self w
  = (Return (PDict d),
     refreshed self token (clock env (time_reads w) + ttl) token_type country,
     after_clock (after_event w (SessionCall InAuth (exchange_call self h p)))).
Proof.
  exact (auth_success_exact_run env self h p w status d token ttl token_type
           country).
Qed.

Lemma auth_success_sets_state_witness :
  Auth.auth Sample.env (Some []) None Sample.fresh_auth start
  = (Return Sample.token_response,
     refreshed Sample.fresh_auth (PStr "abc") (1000 + 300)
       (PStr "Bearer") (PStr "IT"),
     after_clock
       (after_event start
          (SessionCall InAuth
             (exchange_call Sample.fresh_auth (Some []) None)))).
Proof.
  apply (auth_success_sets_state Sample.env Sample.fresh_auth (Some []) None
           start 200).
  - intros [H|H]; discriminate H.
  - intros [H|H]; discriminate H.
  - reflexivity.
  - repeat split.
  - reflexivity.
  - reflexivity.
Defined.




(** [auth] never touches the configuration of the controller, however it
    ends. *)
Lemma auth_configuration_kept
    (env : Env) (self : Auth.t) (h p : option dict) (w : World) :
  let after := self_after (Auth.auth env h p self w) in
  Auth.base_api after = Auth.base_api self /\
  Auth.endpoint after = Auth.endpoint self /\
  Auth.headers after = Auth.headers self /\
  Auth.payload after = Auth.payload self.
Proof.
  unfold self_after, Auth.auth, bind, get_self, raise_if, session_call.
  destruct (truthy (of_opt_str (Auth.base_api self))); simpl; [|auto].
  destruct (truthy (of_opt_str (Auth.endpoint self))); simpl; [|auto].
  destruct (transport env _ _) as [[status [v|]]|]; simpl; auto.
  unfold py_in, getitem, add_number, Auth.set_token, Auth.set_expiry,
    Auth.set_token_type, Auth.set_country, time_time, bind, get_self,
    put_self, ret, raise.
  destruct v as [ | | |s|d]; simpl; auto.
  - destruct (str_contains "error" s); simpl; auto.
  - destruct (dict_mem "error" d); simpl; auto.
    destruct (dict_get "access_token" d); simpl; auto.
    destruct (dict_get "expires_in" d) as [[ | |z| | ]|]; simpl;
      try destruct (float_of_int z); simpl; auto;
      destruct (dict_get "token_type" d); simpl; auto;
      destruct (dict_get "country" d); simpl; auto.
Qed.

End Exchange.

(* ================================================================= *)
(** ** More on [Client.request] *)

Section Dispatch.
Import Py Eff Spec Runs.

(** [Client.request] without a controller. *)
Lemma request_plain_run
    (env : Env) (self : Client.t) (method : string) (endpoint : option string)
    (headers payload params : option dict) (w : World) :
  Client.auth self = None ->
  ~ missing (Client.base_api self) -> ~ missing endpoint ->
  Client.request env method endpoint headers payload params self w
  = send env self method endpoint headers payload params w.
Proof.
  intros Hauth Hb He.
  apply present_truthy in Hb. apply present_truthy in He.
  unfold Client.request, bind, get_self, raise_if. simpl.
  rewrite Hb, He, Hauth. simpl.
  unfold send, dispatch, answer, session_call, after_event, ret, bind.
  destruct (method =? "post")%string.
  - simpl. now destruct (transport env _ _).
  - destruct (method =? "get")%string; [|reflexivity].
    simpl. now destruct (transport env _ _).
Qed.

(** [Client.request] with the controller [a], once [is_token_expired()]
    has answered [expired]. *)
Lemma request_authorized_run
    (env : Env) (self : Client.t) (a : Auth.t) (method : string)
    (endpoint : option string) (headers payload params : option dict)
    (w w1 : World) (expired : bool) :
  Client.auth self = Some a ->
  ~ missing (Client.base_api self) -> ~ missing endpoint ->
  Auth.is_token_expired env a w = (Return expired, a, w1) ->
  Client.request env method endpoint headers payload params self w
  = if expired then
      match Auth.auth env None None a w1 with
      | (Return _, a1, w2) =>
          send env (with_auth self a1) method endpoint
            (authorized env a1 headers) payload params w2
      | (Raise e, a1, w2) => (Raise e, with_auth self a1, w2)
      end
    else
      send env (with_auth self a) method endpoint
        (authorized env a headers) payload params w1.
Proof.
  intros Hauth Hb He Hexp.
  apply present_truthy in Hb. apply present_truthy in He.
  destruct self as [cb ca cs]. simpl in Hauth, Hb. subst ca.
  unfold Client.request, bind, get_self, raise_if. simpl.
  rewrite Hb, He. simpl.
  unfold Client.on_auth, bind, get_self, ret. simpl. rewrite Hexp.
  unfold send, dispatch, dispatch_call, answer, authorized, with_auth,
    session_call, after_event.
  destruct expired; simpl.
  - destruct (Auth.auth env None None a w1) as [[[resp|e] a1] w2]; simpl;
      [|reflexivity].
    destruct (method =? "post")%string.
    + now destruct (transport env _ _).
    + destruct (method =? "get")%string; [|reflexivity].
      now destruct (transport env _ _).
  - destruct (method =? "post")%string.
    + now destruct (transport env _ _).
    + destruct (method =? "get")%string; [|reflexivity].
      now destruct (transport env _ _).
Qed.

Lemma send_keeps_client
    (env : Env) (self : Client.t) (method : string) (endpoint : option string)
    (headers payload params : option dict) (w : World) :
  self_after (send env self method endpoint headers payload params w) = self.
Proof.
  unfold send, dispatch.
  destruct (method =? "post")%string; [reflexivity|].
  destruct (method =? "get")%string; reflexivity.
Qed.

(** X11.  What a request may change.  However [Client.request] ends, the
    client has the [base_api] and the session it had; a client without a
    controller still has none; a client with a controller has one with the
    same [base_api], [endpoint], [headers] and [payload].  Only the token
    state of the controller can change. *)
Theorem request_keeps_configuration
    (env : Env) (self : Client.t) (method : string) (endpoint : option string)
    (headers payload params : option dict) (w : World) :
  let after :=
    self_after (Client.request env method endpoint headers payload params
                  self w) in
  Client.base_api after = Client.base_api self /\
  Client.session after = Client.session self /\
  match Client.auth self with
  | None => Client.auth after = None
  | Some a =>
      exists a' : Auth.t,
        Client.auth after = Some a' /\
        Auth.base_api a' = Auth.base_api a /\
        Auth.endpoint a' = Auth.endpoint a /\
        Auth.headers a' = Auth.headers a /\
        Auth.payload a' = Auth.payload a
  end.
Proof.
  assert (Hsame : forall run : result (option Response) * Client.t * World,
    self_after run = self ->
    Client.base_api (self_after run) = Client.base_api self /\
    Client.session (self_after run) = Client.session self /\
    match Client.auth self with
    | None => Client.auth (self_after run) = None
    | Some a =>
        exists a' : Auth.t,
          Client.auth (self_after run) = Some a' /\
          Auth.base_api a' = Auth.base_api a /\
          Auth.endpoint a' = Auth.endpoint a /\
          Auth.headers a' = Auth.headers a /\
          Auth.payload a' = Auth.payload a
    end).
  { intros run ->. split; [reflexivity|]. split; [reflexivity|].
    destruct (Client.auth self) as [a|]; [|reflexivity].
    exists a. repeat split. }
  cbv zeta.
  destruct (truthy (of_opt_str (Client.base_api self))) eqn:Hb.
  2:{ apply Hsame. unfold Client.request, bind, get_self, raise_if.
      simpl. now rewrite Hb. }
  destruct (truthy (of_opt_str endpoint)) eqn:He.
  2:{ apply Hsame. unfold Client.request, bind, get_self, raise_if.
      simpl. now rewrite Hb, He. }
  assert (Hb' : ~ missing (Client.base_api self))
    by (intros H; apply missing_falsy in H; congruence).
  assert (He' : ~ missing endpoint)
    by (intros H; apply missing_falsy in H; congruence).
  destruct (Client.auth self) as [a|] eqn:Hauth.
  - destruct (is_token_expired_run env a w) as [b [w1 [Hexp _]]].
    rewrite (request_authorized_run env self a method endpoint headers
               payload params w w1 b Hauth Hb' He' Hexp).
    destruct b.
    + pose proof (auth_configuration_kept env a None None w1) as Hkept.
      unfold self_after in Hkept. simpl in Hkept.
      destruct (Auth.auth env None None a w1) as [[[resp|e] a1] w2];
        simpl in Hkept; rewrite ?send_keeps_client;
        (split; [reflexivity|]; split; [reflexivity|];
         exists a1; split; [reflexivity | exact Hkept]).
    + rewrite send_keeps_client.
      split; [reflexivity|]. split; [reflexivity|].
      exists a. repeat split.
  - rewrite (request_plain_run env self method endpoint headers payload
               params w Hauth Hb' He').
    rewrite send_keeps_client.
    split; [reflexivity|]. split; [reflexivity | exact Hauth].
Qed.

(** X12.  A client without a controller.  With [base_api] and the endpoint
    present, [Client.get] and [Client.post] make exactly one call, a [get]
    or a [post] to [base_api + endpoint] with the headers, payload and
    params of the caller as they are (no [Authorization] is added); the
    client is unchanged, and the caller gets the response, or the error of
    the transport. *)
Theorem plain_get_and_post
    (env : Env) (self : Client.t) (endpoint : option string)
    (headers payload params : option dict) (w : World) :
  Client.auth self = None ->
  ~ missing (Client.base_api self) -> ~ missing endpoint ->
  let sent verb := dispatch_call self verb endpoint headers payload params in
  Client.get env endpoint headers payload params self w
  = (answer env w (sent "get"), self,
     after_event w (SessionCall InRequest (sent "get")))
  /\
  Client.post env endpoint headers payload params self w
  = (answer env w (sent "post"), self,
     after_event w (SessionCall InRequest (sent "post"))).
Proof.
  intros Hauth Hb He sent. unfold Client.get, Client.post.
  rewrite !(request_plain_run env self _ endpoint headers payload params w
              Hauth Hb He).
  split; reflexivity.
Qed.

Lemma plain_get_and_post_witness :
  let self := Sample.client_of None in
  let sent verb :=
    dispatch_call self verb (Some "/v1/ping") None None None in
  Client.get Sample.env (Some "/v1/ping") None None None self start
  = (answer Sample.env start (sent "get"), self,
     after_event start (SessionCall InRequest (sent "get")))
  /\
  Client.post Sample.env (Some "/v1/ping") None None None self start
  = (answer Sample.env start (sent "post"), self,
     after_event start (SessionCall InRequest (sent "post"))).
Proof.
  apply (plain_get_and_post Sample.env (Sample.client_of None)
           (Some "/v1/ping") None None None start).
  - reflexivity.
  - intros [H|H]; discriminate H.
  - intros [H|H]; discriminate H.
Defined.

(** X13.  A refresh that fails stops the request.  When the token is
    expired and the exchange raises, [Client.request] raises the same
    exception and dispatches nothing: the world is the one the exchange
    left, and the controller is as the exchange left it. *)
Theorem request_stops_on_failed_refresh
    (env : Env) (self : Client.t) (a : Auth.t) (method : string)
    (endpoint : option string) (headers payload params : option dict)
    (w : World) (e : exn) :
  Client.auth self = Some a ->
  ~ missing (Client.base_api self) -> ~ missing endpoint ->
  let check := Auth.is_token_expired env a w in
  let exchange := Auth.auth env None None a (world_after check) in
  outcome check = Return true ->
  outcome exchange = Raise e ->
  Client.request env method endpoint headers payload params self w
  = (Raise e, with_auth self (self_after exchange), world_after exchange).
Proof.
  intros Hauth Hb He check exchange Hcheck Hexch.
  destruct (is_token_expired_run env a w) as [b [w1 [Hexp _]]].
  subst check exchange. rewrite Hexp in *.
  unfold outcome, world_after, self_after in *. simpl in *.
  injection Hcheck as ->.
  rewrite (request_authorized_run env self a method endpoint headers
             payload params w w1 true Hauth Hb He Hexp).
  destruct (Auth.auth env None None a w1) as [[[resp|e'] a1] w2];
    simpl in *; [discriminate Hexch|].
  injection Hexch as ->. reflexivity.
Qed.

Lemma request_stops_on_failed_refresh_witness :
  let env := Sample.env_with (PDict [("error", PStr "invalid_client")]) in
  let self := Sample.client_of (Some Sample.fresh_auth) in
  Client.request env "get" (Some "/v1/data") None None None self start
  = (Raise (Exception "An error occurred during auth"
              [PDict [("error", PStr "invalid_client")]]),
     with_auth self
       (self_after (Auth.auth env None None Sample.fresh_auth start)),
     world_after (Auth.auth env None None Sample.fresh_auth start)).
Proof.
  apply (request_stops_on_failed_refresh
           (Sample.env_with (PDict [("error", PStr "invalid_client")]))
           (Sample.client_of (Some Sample.fresh_auth)) Sample.fresh_auth
           "get" (Some "/v1/data") None None None start).
  - reflexivity.
  - intros [H|H]; discriminate H.
  - intros [H|H]; discriminate H.
  - reflexivity.
  - reflexivity.
Defined.









End Dispatch.

(* ================================================================= *)
(** ** More on the construction of adapters and clients *)

Section Construction.
Import Py Eff Spec Runs.

(** X15.  The failures of [SSLCiphers.__init__] that validation does not
    name.  With an acceptable cipher list: a security level that is not an
    [int] raises [TypeError] before any context is created; and with a
    level in [0,5], a cipher string that OpenSSL refuses raises [SSLError]
    after the context was created and the string was handed to it. *)
Theorem ssl_ciphers_init_other_failures
    {S : Type} (env : Env) (retries : option SSLCiphers.Retry)
    (self : S) (w : World) (cipher_list : pyval) :
  acceptable cipher_list ->
  (forall level : pyval,
      is_int level = false ->
      exists msg : string,
        SSLCiphers.init env cipher_list level retries self w
        = (Raise (TypeError msg), self, w))
  /\
  (forall z : Z,
      0 <= z <= 5 ->
      set_ciphers_ok env (cipher_string env cipher_list z) = false ->
      SSLCiphers.init env cipher_list (PInt z) retries self w
      = (Raise SSLError, self,
         after_event (after_event w CreateDefaultContext)
           (SetCiphers (cipher_string env cipher_list z)))).
Proof.
  intros Hacc.
  assert (Hchecks :
    forall (A : Type) (k : unit -> M S A),
      bind
        (if truthy cipher_list then
           bind
             (raise_if (negb (is_str cipher_list))
                (TypeError ("Expected cipher_list to be a str, not "
                            ++ py_repr env cipher_list)))
             (fun _ =>
                raise_if (str_contains "@SECLEVEL" (py_str env cipher_list))
                  (ValueError
                     "You must not specify the Security Level manually in the cipher list."))
         else ret tt) k self w
      = k tt self w).
  { intros A k. unfold bind, raise_if, ret.
    destruct Hacc as [Hf | [s [-> Hs]]].
    - now rewrite Hf.
    - simpl. destruct (negb (s =? "")%string); [|reflexivity].
      now rewrite Hs. }
  split.
  - intros level Hint. unfold SSLCiphers.init. rewrite Hchecks.
    unfold bind, raise_if. rewrite Hint. simpl. eexists. reflexivity.
  - intros z Hz Hno. apply in_range_6 in Hz.
    unfold SSLCiphers.init. rewrite Hchecks.
    unfold cipher_string in *.
    unfold SSLCiphers.create_default_context, SSLCiphers.set_ciphers,
      bind, raise_if, emit, ret, raise, after_event.
    simpl is_int. simpl negb. cbv iota. rewrite Hz. simpl negb. cbv iota.
    destruct (truthy cipher_list); simpl in Hno |- *; now rewrite Hno.
Qed.

Lemma ssl_ciphers_init_other_failures_witness :
  (exists msg : string,
      SSLCiphers.init Sample.env (PStr "HIGH") (PStr "2") None tt start
      = (Raise (TypeError msg), tt, start))
  /\
  (let refusing :=
     {| py_repr := Sample.repr; set_ciphers_ok := fun _ => false;
        clock := clock Sample.env; transport := transport Sample.env |} in
   SSLCiphers.init refusing (PStr "HIGH") (PInt 2) None tt start
   = (Raise SSLError, tt,
      after_event (after_event start CreateDefaultContext)
        (SetCiphers (cipher_string refusing (PStr "HIGH") 2)))).
Proof.
  split.
  - apply (proj1 (ssl_ciphers_init_other_failures Sample.env None tt start
                    (PStr "HIGH")
                    (or_intror (ex_intro _ "HIGH" (conj eq_refl eq_refl))))).
    reflexivity.
  - apply (proj2 (ssl_ciphers_init_other_failures
                    {| py_repr := Sample.repr; set_ciphers_ok := fun _ => false;
                       clock := clock Sample.env;
                       transport := transport Sample.env |}
                    None tt start (PStr "HIGH")
                    (or_intror (ex_intro _ "HIGH" (conj eq_refl eq_refl))))).
    + lia.
    + reflexivity.
Defined.

(** X16.  Constructing a client.  [Client(auth, base_api, default_headers,
    proxy)] validates nothing: it creates one TLS context and hands it the
    default cipher list at security level 2.  If OpenSSL takes it, the
    client holds [auth] and [base_api] as given (also when they are
    missing), an adapter with hostname checking off and the fixed retry
    policy, and the proxy for both ["http"] and ["https"] when the proxy is
    a non-empty string, no proxy otherwise.  If OpenSSL refuses, the
    construction raises [SSLError]. *)
Theorem client_init_outcome
    {S : Type} (env : Env) (auth : option Auth.t) (base_api : option string)
    (default_headers : dict) (proxy : option string) (s0 : S) (w : World) :
  let ciphers := cipher_string env PNone 2 in
  let w' := after_event (after_event w CreateDefaultContext)
              (SetCiphers ciphers) in
  Client.init env auth base_api default_headers proxy s0 w
  = if set_ciphers_ok env ciphers then
      (Return
         {| Client.base_api := base_api;
            Client.auth := auth;
            Client.session :=
              {| Client.https_adapter :=
                   {| SSLCiphers.ssl_context :=
                        {| SSLCiphers.check_hostname := false;
                           SSLCiphers.ciphers := Some ciphers |};
                      SSLCiphers.max_retries := Some Client.retry_policy |};
                 Client.proxies :=
                   match proxy with
                   | Some p =>
                       if (p =? "")%string then []
                       else [("http", p); ("https", p)]
                   | None => []
                   end;
                 Client.session_headers := default_headers |} |},
       s0, w')
    else (Raise SSLError, s0, w').
Proof.
  unfold Client.init, Client.setup_session, SSLCiphers.init,
    SSLCiphers.create_default_context, SSLCiphers.set_ciphers,
    cipher_string, bind, raise_if, emit, ret, raise, after_event.
  simpl.
  destruct (set_ciphers_ok env _); [|reflexivity].
  destruct proxy as [p|]; [|reflexivity].
  now destruct (p =? "")%string.
Qed.

End Construction.

(* ================================================================= *)
(** ** Properties of the client factory *)

Section Replace.
Import ClientFactory.

Lemma prefix_app (s t : string) : String.prefix s (s ++ t) = true.
Proof.
  induction s as [|c s IH]; simpl.
  - now destruct t.
  - destruct (Ascii.ascii_dec c c); [exact IH | contradiction].
Qed.

Lemma replace_from_skip (old new x rest : string) :
  replace_from old new (String.length x) (x ++ rest)
  = replace_from old new 0 rest.
Proof.
  induction x as [|c x IH]; simpl; [|exact IH].
  destruct rest; reflexivity.
Qed.

(** A string in which [old] does not occur is left as it is. *)
Lemma replace_from_absent (old new s : string) :
  String.index 0 old s = None -> replace_from old new 0 s = s.
Proof.
  induction s as [|c s IH]; [reflexivity|].
  cbn [String.index replace_from].
  destruct (String.prefix old (String c s)); [discriminate|].
  destruct (String.index 0 old s); [discriminate|].
  intros _. now rewrite IH.
Qed.

(** The first occurrence of [old] is replaced, and the replacement goes on
    after it. *)
Lemma replace_from_first (a : ascii) (old' new pre post : string) :
  String.index 0 (String a old') (pre ++ String a old' ++ post)
  = Some (String.length pre) ->
  replace_from (String a old') new 0 (pre ++ String a old' ++ post)
  = (pre ++ new ++ replace_from (String a old') new 0 post)%string.
Proof.
  induction pre as [|c pre IH].
  - intros _. cbn [append]. cbn [replace_from].
    change (String a (old' ++ post)) with (String a old' ++ post)%string.
    rewrite prefix_app.
    replace (String.length (String a old') - 1)%nat with (String.length old')
      by (simpl; lia).
    now rewrite replace_from_skip.
  - intros H.
    change (String c pre ++ String a old' ++ post)%string
      with (String c (pre ++ String a old' ++ post)) in *.
    cbn [String.length] in H.
    remember (pre ++ String a old' ++ post)%string as t eqn:Et.
    cbn [String.index] in H. cbn [replace_from].
    destruct (String.prefix (String a old') (String c t)); [discriminate H|].
    destruct (String.index 0 (String a old') t) as [n|]; [|discriminate H].
    injection H as ->. now rewrite IH.
Qed.

End Replace.

Section Profiles.
Import Py Eff Spec ClientFactory.

(** The run of [extract_auth_config] on a mapping, written out. *)
Lemma extract_auth_config_run
    {S : Type} (c : dict) (self : S) (w : World) :
  extract_auth_config (PDict c) self w
  = (match dict_get "base_api" c with
     | None => Raise (KeyError "base_api")
     | Some base_api =>
         match dict_get "auth" c with
         | None => Raise (KeyError "auth")
         | Some (PDict section) =>
             match dict_get "endpoint" section with
             | None => Raise (KeyError "endpoint")
             | Some endpoint =>
                 match dict_get "headers" section with
                 | None => Raise (KeyError "headers")
                 | Some headers =>
                     match dict_get "payload" section with
                     | None => Raise (KeyError "payload")
                     | Some payload =>
                         Return
                           (PDict [("base_api", base_api);
                                   ("endpoint", endpoint);
                                   ("headers", headers);
                                   ("payload", payload)])
                     end
                 end
             end
         | Some _ => Raise OperandTypeError
         end
     end, self, w).
Proof.
  unfold extract_auth_config, getitem, bind, ret, raise.
  destruct (dict_get "base_api" c); [|reflexivity].
  destruct (dict_get "auth" c) as [[ | | | |section]|]; try reflexivity.
  destruct (dict_get "endpoint" section); [|reflexivity].
  destruct (dict_get "headers" section); [|reflexivity].
  destruct (dict_get "payload" section); reflexivity.
Qed.

Context {S : Type} (env : Env) (b64encode : string -> string) (uuid : string).
Variables (c section h : dict).
Variables (base_api endpoint payload user password : pyval).
Variables (authorization anonymous_id : pyval).

(** A profile with everything [crunchyroll] reads. *)
Hypothesis has_base_api : dict_get "base_api" c = Some base_api.
Hypothesis has_auth : dict_get "auth" c = Some (PDict section).
Hypothesis has_endpoint : dict_get "endpoint" section = Some endpoint.
Hypothesis has_headers : dict_get "headers" section = Some (PDict h).
Hypothesis has_payload : dict_get "payload" section = Some payload.
Hypothesis has_user : dict_get "user" section = Some user.
Hypothesis has_password : dict_get "password" section = Some password.
Hypothesis has_authorization : dict_get "Authorization" h = Some authorization.
Hypothesis has_anonymous_id :
  dict_get "ETP-Anonymous-ID" h = Some anonymous_id.

(** The credentials put in place of [{token}]. *)
Let credentials : string :=
  b64encode (py_str env user ++ ":" ++ py_str env password)%string.

(** The headers of the controller: those of the profile with the two
    templates filled. *)
Let filled_headers : dict :=
  dict_set "ETP-Anonymous-ID"
    (PStr (str_replace "{id}" uuid (py_str env anonymous_id)))
    (dict_set "Authorization"
       (PStr (str_replace "{token}" credentials (py_str env authorization)))
       h).

Lemma crunchyroll_auth_run (self : S) (w : World) :
  crunchyroll_auth env b64encode uuid (PDict c) self w
  = (Return (PDict [("base_api", base_api); ("endpoint", endpoint);
                    ("headers", PDict filled_headers);
                    ("payload", payload)]),
     self, w).
Proof.
  unfold crunchyroll_auth, fill_header.
  unfold bind at 1. rewrite extract_auth_config_run.
  rewrite has_base_api, has_auth, has_endpoint, has_headers, has_payload.
  unfold getitem, setitem, bind, ret. simpl.
  rewrite has_authorization, has_auth. simpl.
  rewrite has_user, has_password. simpl.
  rewrite dict_get_set_other by discriminate.
  rewrite has_anonymous_id. reflexivity.
Qed.

(** X18.  What [crunchyroll] gives the controller.  On a profile that has
    the settings it reads, the keyword arguments for [Auth] are the
    [base_api], [endpoint] and [payload] of the profile and its auth
    headers, in their order, where [Authorization] has [{token}] replaced
    by the base64 of ["user:password"] and [ETP-Anonymous-ID] has [{id}]
    replaced by the drawn identifier; every other header is passed as the
    profile has it, and nothing is sent. *)
Theorem crunchyroll_auth_fills_templates (self : S) (w : World) :
  crunchyroll_auth env b64encode uuid (PDict c) self w
  = (Return (PDict [("base_api", base_api); ("endpoint", endpoint);
                    ("headers", PDict filled_headers);
                    ("payload", payload)]),
     self, w)
  /\ keys filled_headers = keys h
  /\ dict_get "Authorization" filled_headers
     = Some (PStr (str_replace "{token}" credentials
                     (py_str env authorization)))
  /\ dict_get "ETP-Anonymous-ID" filled_headers
     = Some (PStr (str_replace "{id}" uuid (py_str env anonymous_id)))
  /\ forall name : string,
       name <> "Authorization" -> name <> "ETP-Anonymous-ID" ->
       dict_get name filled_headers = dict_get name h.
Proof.
  split; [apply crunchyroll_auth_run|]. unfold filled_headers.
  split; [|split; [|split]].
  - rewrite !keys_dict_set. unfold dict_mem.
    rewrite dict_get_set_other by discriminate.
    now rewrite has_anonymous_id, has_authorization.
  - rewrite dict_get_set_other by discriminate. apply dict_get_set_same.
  - apply dict_get_set_same.
  - intros name H1 H2.
    rewrite !dict_get_set_other by congruence. reflexivity.
Qed.

(** X19.  The [Authorization] header the controller gets.  When the
    template of the profile is a string that holds [{token}] once, the
    header is the template with the credentials in that place; when it does
    not hold [{token}], the header is the template as it is, and no
    credentials are sent. *)
Theorem crunchyroll_authorization_header
    (self : S) (w : World) (template : string) :
  authorization = PStr template ->
  exists (auth headers : dict),
    outcome (crunchyroll_auth env b64encode uuid (PDict c) self w)
    = Return (PDict auth) /\
    dict_get "headers" auth = Some (PDict headers) /\
    (forall pre post : string,
        template = (pre ++ "{token}" ++ post)%string ->
        String.index 0 "{token}" template = Some (String.length pre) ->
        String.index 0 "{token}" post = None ->
        dict_get "Authorization" headers
        = Some (PStr (pre ++ credentials ++ post))) /\
    (String.index 0 "{token}" template = None ->
     dict_get "Authorization" headers = Some (PStr template)).
Proof.
  intros Htemplate.
  eexists _, filled_headers. rewrite crunchyroll_auth_run.
  split; [reflexivity|]. split; [reflexivity|].
  assert (Hget : dict_get "Authorization" filled_headers
                 = Some (PStr (str_replace "{token}" credentials template))).
  { unfold filled_headers. rewrite dict_get_set_other by discriminate.
    rewrite dict_get_set_same, Htemplate. reflexivity. }
  rewrite Hget. unfold str_replace. split.
  - intros pre post -> Hfirst Hrest.
    rewrite (replace_from_first _ _ _ _ _ Hfirst).
    now rewrite (replace_from_absent _ _ _ Hrest).
  - intros Hnone. now rewrite (replace_from_absent _ _ _ Hnone).
Qed.

End Profiles.

Lemma crunchyroll_auth_fills_templates_witness :
  let encode := fun s : string => ("<" ++ s ++ ">")%string in
  let headers :=
    [("Authorization", Py.PStr "Basic <user:pw>");
     ("ETP-Anonymous-ID", Py.PStr "0f8b");
     ("Content-Type", Py.PStr "application/x-www-form-urlencoded")] in
  ClientFactory.crunchyroll_auth Sample.env encode "0f8b"
    ClientFactory.profile tt Eff.start
  = (Eff.Return
       (Py.PDict
          [("base_api", Py.PStr "https://api.example.com");
           ("endpoint", Py.PStr "/auth/v1/token");
           ("headers", Py.PDict headers);
           ("payload", Py.PDict [("grant_type", Py.PStr "client_id")])]),
     tt, Eff.start).
Proof.
  exact (proj1
           (crunchyroll_auth_fills_templates (S := unit) Sample.env
              (fun s : string => ("<" ++ s ++ ">")%string) "0f8b"
              ClientFactory.profile_items ClientFactory.profile_auth
              ClientFactory.profile_headers _ _ _ _ _ _ _
              eq_refl eq_refl eq_refl eq_refl eq_refl eq_refl eq_refl
              eq_refl eq_refl tt Eff.start)).
Defined.

Lemma crunchyroll_authorization_header_witness :
  exists (auth headers : Py.dict),
    Spec.outcome
      (ClientFactory.crunchyroll_auth Sample.env
         (fun s : string => ("<" ++ s ++ ">")%string) "0f8b"
         ClientFactory.profile tt Eff.start)
    = Eff.Return (Py.PDict auth) /\
    Py.dict_get "headers" auth = Some (Py.PDict headers) /\
    Py.dict_get "Authorization" headers = Some (Py.PStr "Basic <user:pw>").
Proof.
  destruct (crunchyroll_authorization_header (S := unit) Sample.env
              (fun s : string => ("<" ++ s ++ ">")%string) "0f8b"
              ClientFactory.profile_items ClientFactory.profile_auth
              ClientFactory.profile_headers _ _ _ _ _ _ _
              eq_refl eq_refl eq_refl eq_refl eq_refl eq_refl eq_refl
              eq_refl eq_refl tt Eff.start "Basic {token}" eq_refl)
    as [auth [headers [Hrun [Hheaders [Hfilled _]]]]].
  exists auth, headers. split; [exact Hrun|]. split; [exact Hheaders|].
  apply (Hfilled "Basic " ""); reflexivity.
Defined.

(* ================================================================= *)
(** ** When an exchange changes the controller *)

Section Untouched.
Import Py Eff Spec Runs.

(** X20.  [auth] changes the controller only when the auth endpoint
    answered with a mapping that has no [error] key and has an
    [access_token], and then the token it holds is that [access_token].
    In every other run (a missing setting, a transport error, a body that
    is not JSON or not a mapping, an [error] key, no [access_token]) the
    controller is left exactly as it was. *)
Theorem auth_changes_only_with_token
    (env : Env) (self : Auth.t) (h p : option dict) (w : World) :
  let run := Auth.auth env h p self w in
  self_after run = self \/
  exists (status : Z) (d : dict) (token : pyval),
    transport env (List.length (trace w)) (exchange_call self h p)
    = Responds {| status_code := status; body := Some (PDict d) |} /\
    dict_mem "error" d = false /\
    dict_get "access_token" d = Some token /\
    Auth.token (self_after run) = token.
Proof.
  cbv zeta.
  unfold self_after, Auth.auth, bind, get_self, raise_if, session_call.
  destruct (truthy (of_opt_str (Auth.base_api self))); simpl; [|now left].
  destruct (truthy (of_opt_str (Auth.endpoint self))); simpl; [|now left].
  fold (exchange_call self h p).
  destruct (transport env _ _) as [[status [v|]]|] eqn:Ht; simpl;
    try (now left).
  unfold py_in, getitem, add_number, Auth.set_token, Auth.set_expiry,
    Auth.set_token_type, Auth.set_country, time_time, bind, get_self,
    put_self, ret, raise.
  destruct v as [ | | |s|d]; simpl; try (now left).
  - destruct (str_contains "error" s); simpl; now left.
  - destruct (dict_mem "error" d) eqn:Herr; simpl; [now left|].
    destruct (dict_get "access_token" d) as [token|] eqn:Htok; simpl;
      [|now left].
    right. exists status, d, token.
    do 3 (split; [first [reflexivity | assumption]|]).
    destruct (dict_get "expires_in" d) as [[ | |z| | ]|]; simpl;
      try destruct (float_of_int z); simpl; try reflexivity;
      destruct (dict_get "token_type" d); simpl; try reflexivity;
      destruct (dict_get "country" d); reflexivity.
Qed.

End Untouched.
